(** * nmc_met_graphics.magics.util: adapters from gridded fields to Magics input

    A shallow embedding of [src/nmc_met_graphics/magics/util.py] and the
    properties of its stride estimator and of its scalar and vector
    adapters.

    - [Py]      : Python results (a value or a raised exception).
    - [Np]      : the fragment of numpy the module uses: n-d arrays as a
                  shape with row-major data, [astype], [squeeze], [meshgrid],
                  basic slicing [a[::k, ::k]], [flatten], boolean masks.
    - [Magics]  : the keyword arguments a call of [magics.minput] receives.
    - [XArray]  : the operations of an xarray dataset the module calls,
                  and an in-memory dataset to run the adapters on.
    - [Util]    : the functions of util.py themselves.
    - [Samples] : small fields and datasets used in the concrete runs.

    The properties tagged [C1] to [C10] are those of the specification;
    those tagged [X1] onwards are further properties read off the code. *)

From Stdlib Require Import String.
From Stdlib Require Import List ZArith Arith Lia Bool PrimFloat QArith Qround.
Import ListNotations.

Local Open Scope nat_scope.
Local Open Scope list_scope.

(* ================================================================== *)
(** ** Python results *)

Module Py.

(** The exceptions the modelled code can raise. *)
Inductive exn : Type :=
| IndexError
| ValueError
| KeyError
| TypeError.

(** A Python expression either raises or evaluates to a value. *)
Inductive result (A : Type) : Type :=
| Raise (e : exn)
| Ret (a : A).

Arguments Raise {A} e.
Arguments Ret {A} a.

Definition bind {A B : Type} (r : result A) (k : A -> result B) : result B :=
  match r with
  | Raise e => Raise e
  | Ret a => k a
  end.

Definition raises {A : Type} (r : result A) : Prop :=
  exists e, r = Raise e.

End Py.

Import Py.

Declare Scope py_scope.
Delimit Scope py_scope with py.
Notation "x <- c ;; k" := (bind c (fun x => k))
  (at level 61, c at next level, right associativity) : py_scope.
Local Open Scope py_scope.

(** From [(x <- c ;; k) = Ret r]: [c] returned, and the rest did. *)
Ltac bind_inv H :=
  repeat match type of H with
         | bind ?c _ = Ret _ =>
             let E := fresh "E" in
             destruct c eqn:E; cbn [bind] in H; [discriminate H|]
         end.

(* ================================================================== *)
(** ** numpy arrays *)

Module Np.

(** An n-d array: its shape and its elements in row-major (C) order. *)
Record ndarray (A : Type) : Type := mk_ndarray {
  shape : list nat;
  data : list A
}.

Arguments mk_ndarray {A} shape data.
Arguments shape {A} n.
Arguments data {A} n.

Definition size_of (sh : list nat) : nat := fold_right Nat.mul 1 sh.

(** The array invariant of numpy: as many elements as the shape says. *)
Definition wf {A : Type} (a : ndarray A) : Prop :=
  length (data a) = size_of (shape a).

Definition size {A : Type} (a : ndarray A) : nat := length (data a).

(** [np.array(l)] for a flat Python list. *)
Definition vector {A : Type} (l : list A) : ndarray A :=
  mk_ndarray [length l] l.

(** [len(a)]: the length of the first axis; a 0-d array has none. *)
Definition len {A : Type} (a : ndarray A) : result nat :=
  match shape a with
  | [] => Raise TypeError
  | n :: _ => Ret n
  end.

(** [a.astype(np.float64)] on an array that holds float64 values already:
    a copy with the same shape and values. *)
Definition astype_float64 (a : ndarray float) : ndarray float := a.

(** [np.squeeze(a)]: every axis of length one is removed. *)
Definition squeeze {A : Type} (a : ndarray A) : ndarray A :=
  mk_ndarray (filter (fun d => negb (d =? 1)) (shape a)) (data a).

(** [a.flatten()]. *)
Definition flatten {A : Type} (a : ndarray A) : ndarray A :=
  mk_ndarray [length (data a)] (data a).

(** [np.meshgrid(x, y)] with the default ['xy'] indexing: both inputs are
    flattened; both outputs have shape [(y.size, x.size)]; the first
    repeats [x] along the rows, the second repeats each element of [y]
    along a row. *)
Definition meshgrid {A : Type} (x y : ndarray A) : ndarray A * ndarray A :=
  let nx := length (data x) in
  let ny := length (data y) in
  (mk_ndarray [ny; nx] (concat (repeat (data x) ny)),
   mk_ndarray [ny; nx] (flat_map (fun v => repeat v nx) (data y))).

(** *** Basic slicing *)

(** Every [s]-th element of [l], the first one after skipping [c]. *)
Fixpoint stride_from {A : Type} (s c : nat) (l : list A) : list A :=
  match l with
  | [] => []
  | x :: t =>
      match c with
      | 0 => x :: stride_from s (s - 1) t
      | S c' => stride_from s c' t
      end
  end.

(** [l[::k]] for [k <> 0]: a positive step walks from the first element,
    a negative step from the last one. *)
Definition slice_step {A : Type} (k : Z) (l : list A) : list A :=
  if (0 <? k)%Z then stride_from (Z.to_nat k) 0 l
  else stride_from (Z.to_nat (- k)) 0 (rev l).

(** [l] cut into [n] consecutive pieces of [m] elements. *)
Fixpoint chunks {A : Type} (m n : nat) (l : list A) : list (list A) :=
  match n with
  | 0 => []
  | S n' => firstn m l :: chunks m n' (skipn m l)
  end.

(** The number of elements [l[::k]] keeps out of [n]. *)
Definition slice_len (k : Z) (n : nat) : nat :=
  let s := Z.abs_nat k in (n + s - 1) / s.

(** The data of [a[::k, ::k]] for an array of shape [d0 :: d1 :: rest]
    whose trailing axes hold [b] elements. *)
Definition slice2_data {A : Type} (k : Z) (d0 d1 b : nat) (l : list A)
  : list A :=
  concat (map (fun row => concat (slice_step k (chunks b d1 row)))
              (slice_step k (chunks (d1 * b) d0 l))).

(** [a[::k, ::k]]: two indices need two axes, and a slice step cannot be
    zero. *)
Definition slice2 {A : Type} (k : Z) (a : ndarray A) : result (ndarray A) :=
  match shape a with
  | d0 :: d1 :: rest =>
      if (k =? 0)%Z then Raise ValueError
      else Ret (mk_ndarray (slice_len k d0 :: slice_len k d1 :: rest)
                           (slice2_data k d0 d1 (size_of rest) (data a)))
  | _ => Raise IndexError
  end.

(** *** Element-wise operations and boolean masks *)

Definition map_array {A B : Type} (f : A -> B) (a : ndarray A) : ndarray B :=
  mk_ndarray (shape a) (map f (data a)).

(** [np.isnan(a)]. *)
Definition isnan (a : ndarray float) : ndarray bool :=
  map_array PrimFloat.is_nan a.

(** [~m] on a boolean array. *)
Definition invert (m : ndarray bool) : ndarray bool := map_array negb m.

(** [a >= x] and [a <= x] against a scalar; a NaN compares false. *)
Definition ge_scalar (a : ndarray float) (x : float) : ndarray bool :=
  map_array (fun v => PrimFloat.leb x v) a.

Definition le_scalar (a : ndarray float) (x : float) : ndarray bool :=
  map_array (fun v => PrimFloat.leb v x) a.

Definition shape_eqb (s t : list nat) : bool :=
  if list_eq_dec Nat.eq_dec s t then true else false.

(** [m1 & m2].  The operands in util.py have the same shape or are both
    one-dimensional; a one-dimensional operand of length one is broadcast
    against the other, any other mismatch is a broadcast error. *)
Definition logical_and (m1 m2 : ndarray bool) : result (ndarray bool) :=
  if shape_eqb (shape m1) (shape m2) then
    Ret (mk_ndarray (shape m1)
                    (map (fun p => andb (fst p) (snd p))
                         (combine (data m1) (data m2))))
  else
    match shape m1, shape m2, data m1, data m2 with
    | [1], [n], [x], l => Ret (mk_ndarray [n] (map (andb x) l))
    | [n], [1], l, [y] => Ret (mk_ndarray [n] (map (fun x => andb x y) l))
    | _, _, _, _ => Raise ValueError
    end.

(** The elements of [l] at the positions where [m] holds. *)
Fixpoint select {A : Type} (m : list bool) (l : list A) : list A :=
  match m, l with
  | b :: m', x :: l' => if b then x :: select m' l' else select m' l'
  | _, _ => []
  end.

(** Whether a mask of shape [ms] may index the leading axes of an array of
    shape [sh]: numpy compares a mask axis with the array axis only when
    the mask axis is not empty, so an empty mask fits any array. *)
Definition mask_axes_ok (ms sh : list nat) : bool :=
  (1 <=? length ms) && (length ms <=? length sh)
  && forallb (fun p => (fst p =? 0) || (fst p =? snd p)) (combine ms sh).

(** [a[m]] for a boolean array [m].  A mask of the array's shape selects
    elements and gives a one-dimensional result.  Otherwise the mask
    indexes the leading axes: it selects the blocks spanned by the
    remaining axes (none at all when the mask is empty), and a non-empty
    mask axis that differs from the array's is an [IndexError].  (A 0-d
    mask on an array with axes does not occur in util.py, whose masks are
    computed from the indexed array or from flattened arrays.) *)
Definition getitem_mask {A : Type} (a : ndarray A) (m : ndarray bool)
  : result (ndarray A) :=
  if shape_eqb (shape m) (shape a) then
    let l := select (data m) (data a) in
    Ret (mk_ndarray [length l] l)
  else if mask_axes_ok (shape m) (shape a) then
    let k := length (shape m) in
    let rest := skipn k (shape a) in
    let blocks := chunks (size_of rest) (size_of (firstn k (shape a)))
                         (data a) in
    let sel := select (data m) blocks in
    Ret (mk_ndarray (length sel :: rest) (concat sel))
  else Raise IndexError.

End Np.

Import Np.

(* ================================================================== *)
(** ** Metadata and the calls into Magics *)

(** A Python [dict] of strings, in insertion order. *)
Definition metadata : Type := list (string * string).

Module Magics.

(** The keyword arguments of [magics.minput] on the scalar path.
    [input_metadata] is whatever the caller passed, [None] included. *)
Record field_input : Type := mk_field_input {
  field_input_type : string;
  input_field : ndarray float;
  input_latitudes_list : ndarray float;
  input_longitudes_list : ndarray float;
  field_input_metadata : option metadata
}.

(** The keyword arguments of [magics.minput] on the vector paths. *)
Record vector_input : Type := mk_vector_input {
  input_type : string;
  input_x_component_values : ndarray float;
  input_y_component_values : ndarray float;
  input_latitude_values : ndarray float;
  input_longitude_values : ndarray float;
  input_metadata : option metadata
}.

(** The keyword arguments of [magics.minput] on the labeled-dataset
    scalar path, which passes no [input_type]. *)
Record dataset_field_input : Type := mk_dataset_field_input {
  ds_input_field : ndarray float;
  ds_input_latitudes_list : ndarray float;
  ds_input_longitudes_list : ndarray float;
  ds_input_metadata : option metadata
}.

End Magics.

Import Magics.

(* ================================================================== *)
(** ** xarray datasets *)

Module XArray.

(** What [ds[name]] evaluates to, as far as util.py looks at it:
    [.values] and [.attrs]. *)
Record DataArray : Type := mk_DataArray {
  values : ndarray float;
  attrs : metadata
}.

(** The operations util.py calls on a dataset: [ds.dims] (the dimension
    names, in iteration order), [ds[name]] and [ds.loc[{dim: label}]].
    xarray is a library outside this repository, so the adapters are
    written against this interface. *)
Class Dataset (D : Type) : Type := {
  dims : D -> list string;
  getitem : D -> string -> result DataArray;
  loc : D -> string -> float -> result D
}.

(** [a[0]] on the values of a coordinate: its first label. *)
Definition item0 (a : ndarray float) : result float :=
  match data a with
  | [] => Raise IndexError
  | x :: _ => Ret x
  end.

(** *** An in-memory dataset

    A dataset as a list of named variables, each with its dimension
    names.  A dimension without a coordinate variable has the default
    index 0, 1, ..., and a label selects a position along it.  Labels
    along a dimension are taken to be distinct, so that selecting a label
    selects one position and drops the dimension. *)

Record variable : Type := mk_variable {
  var_dims : list string;
  var_values : ndarray float;
  var_attrs : metadata
}.

Definition mem_dataset : Type := list (string * variable).

Fixpoint lookup {V : Type} (name : string) (l : list (string * V))
  : option V :=
  match l with
  | [] => None
  | (k, v) :: t => if String.eqb k name then Some v else lookup name t
  end.

Definition mem_dims (ds : mem_dataset) : list string :=
  nodup string_dec (flat_map (fun kv => var_dims (snd kv)) ds).

Fixpoint index_of {A : Type} (p : A -> bool) (l : list A) : option nat :=
  match l with
  | [] => None
  | x :: t => if p x then Some 0 else option_map S (index_of p t)
  end.

(** The length of dimension [dim], read off the first variable that has
    it. *)
Fixpoint dim_size (ds : mem_dataset) (dim : string) : option nat :=
  match ds with
  | [] => None
  | (_, v) :: t =>
      match index_of (String.eqb dim) (var_dims v) with
      | Some ax => Some (nth ax (shape (var_values v)) 0)
      | None => dim_size t dim
      end
  end.

Fixpoint float_of_nat (n : nat) : float :=
  match n with
  | 0 => 0%float
  | S n' => (float_of_nat n' + 1)%float
  end.

(** The default index of a dimension of length [n]. *)
Definition default_index (n : nat) : list float :=
  map float_of_nat (seq 0 n).

(** [ds[name]]: a variable, or the default index of a dimension that has
    no coordinate variable. *)
Definition mem_getitem (ds : mem_dataset) (name : string)
  : result DataArray :=
  match lookup name ds with
  | Some v => Ret (mk_DataArray (var_values v) (var_attrs v))
  | None =>
      match dim_size ds name with
      | Some n => Ret (mk_DataArray (vector (default_index n)) [])
      | None => Raise KeyError
      end
  end.

(** Whether an index entry matches a label: equal values, or both NaN. *)
Definition label_eqb (label x : float) : bool :=
  PrimFloat.eqb label x || (is_nan label && is_nan x).

(** Position [i] along axis [ax] of [a]; the axis is dropped. *)
Definition take_axis (ax i : nat) (a : ndarray float) : ndarray float :=
  let outer := size_of (firstn ax (shape a)) in
  let n := nth ax (shape a) 0 in
  let inner := size_of (skipn (S ax) (shape a)) in
  mk_ndarray (firstn ax (shape a) ++ skipn (S ax) (shape a))
    (concat (map (fun blk => firstn inner (skipn (i * inner) blk))
                 (chunks (n * inner) outer (data a)))).

Definition select_variable (dim : string) (i : nat) (v : variable)
  : variable :=
  match index_of (String.eqb dim) (var_dims v) with
  | Some ax =>
      mk_variable (firstn ax (var_dims v) ++ skipn (S ax) (var_dims v))
                  (take_axis ax i (var_values v)) (var_attrs v)
  | None => v
  end.

Definition mem_loc (ds : mem_dataset) (dim : string) (label : float)
  : result mem_dataset :=
  match lookup dim ds with
  | Some c =>
      match index_of (label_eqb label) (data (var_values c)) with
      | None => Raise KeyError
      | Some i =>
          Ret (map (fun kv => (fst kv, select_variable dim i (snd kv))) ds)
      end
  | None =>
      match dim_size ds dim with
      | None => Raise KeyError
      | Some n =>
          match index_of (PrimFloat.eqb label) (default_index n) with
          | None => Raise IndexError
          | Some i =>
              Ret (map (fun kv => (fst kv, select_variable dim i (snd kv)))
                       ds)
          end
      end
  end.

#[export] Instance mem_Dataset : Dataset mem_dataset := {
  dims := mem_dims;
  getitem := mem_getitem;
  loc := mem_loc
}.

End XArray.

Import XArray.

(* ================================================================== *)
(** ** util.py *)

Module Util.

(** [map_region]: a sequence (lon_min, lon_max, lat_min, lat_max). *)
Definition region : Type := (float * float * float * float)%type.

Definition region0 (r : region) : float := let '(a, _, _, _) := r in a.
Definition region1 (r : region) : float := let '(_, b, _, _) := r in b.
Definition region2 (r : region) : float := let '(_, _, c, _) := r in c.
Definition region3 (r : region) : float := let '(_, _, _, d) := r in d.

(** [math.ceil(n / d)] of a length [n]: the ceiling of the exact quotient
    (the float quotient of a length by 60.0 or 30.0 rounds to the same
    integer for every length an array can have). *)
Definition ceil_div (n : nat) (d : positive) : Z :=
  Qceiling (Z.of_nat n # d).

(** [lon[(lon >= lo) & (lon <= hi)]]. *)
Definition restrict (a : ndarray float) (lo hi : float)
  : result (ndarray float) :=
  m <- logical_and (ge_scalar a lo) (le_scalar a hi) ;;
  getitem_mask a m.

Definition get_skip_vector (lon lat : ndarray float)
           (map_region : option region) : result Z :=
  restricted <- match map_region with
                | Some r =>
                    lon1 <- restrict lon (region0 r) (region1 r) ;;
                    lat1 <- restrict lat (region2 r) (region3 r) ;;
                    Ret (lon1, lat1)
                | None => Ret (lon, lat)
                end ;;
  let '(lon1, lat1) := restricted in
  nlon <- len lon1 ;;
  nlat <- len lat1 ;;
  let skip_vector := Z.max (ceil_div nlon 60) (ceil_div nlat 30) in
  Ret skip_vector.

(** [minput_2d(data, lon, lat, metadata)]. *)
Definition minput_2d (data0 lon lat : ndarray float)
           (metadata0 : option metadata) : field_input :=
  let lat := squeeze (astype_float64 lat) in
  let lon := squeeze (astype_float64 lon) in
  let input_field_values := squeeze (astype_float64 data0) in
  mk_field_input "geographical" input_field_values lat lon metadata0.

(** The default of [minput_2d_vector] when [metadata is None]. *)
Definition default_vector_metadata : metadata :=
  [("units", "m/s"); ("long_name", "wind field")]%string.

(** [minput_2d_vector(udata, vdata, lon, lat, skip, metadata)]: the
    result is an exception, [None], or the arguments passed on to
    [magics.minput]. *)
Definition minput_2d_vector (udata vdata lon lat : ndarray float)
           (skip : Z) (metadata0 : option metadata)
  : result (option vector_input) :=
  (* extract values *)
  let lat := squeeze (astype_float64 lat) in
  let lon := squeeze (astype_float64 lon) in
  let uwind_field := squeeze (astype_float64 udata) in
  let vwind_field := squeeze (astype_float64 vdata) in
  let '(lon, lat) := meshgrid lon lat in
  (* skip values and flatten *)
  uwind_field <- slice2 skip uwind_field ;;
  let uwind_field := flatten uwind_field in
  vwind_field <- slice2 skip vwind_field ;;
  let vwind_field := flatten vwind_field in
  lat <- slice2 skip lat ;;
  let lat := flatten lat in
  lon <- slice2 skip lon ;;
  let lon := flatten lon in
  (* remove nan values *)
  index <- logical_and (invert (isnan uwind_field))
                       (invert (isnan vwind_field)) ;;
  uwind_field <- getitem_mask uwind_field index ;;
  vwind_field <- getitem_mask vwind_field index ;;
  if size uwind_field =? 0 then Ret None
  else
    lat <- getitem_mask lat index ;;
    lon <- getitem_mask lon index ;;
    (* check meta information *)
    let metadata1 := match metadata0 with
                     | None => default_vector_metadata
                     | Some m => m
                     end in
    (* put into magics minput function *)
    Ret (Some (mk_vector_input "geographical" uwind_field vwind_field
                               lat lon (Some metadata1))).

(** The default of the [metadata] parameter of [minput_xarray_vector];
    a call that omits the argument passes this value. *)
Definition minput_xarray_vector_metadata_default : option metadata :=
  Some [("units", "m/s"); ("long_name", "Wind field")]%string.

Definition is_spatial (dim : string) : bool :=
  String.eqb dim "lon" || String.eqb dim "lat".

Section XarrayAdapters.

Context {D : Type} `{Dataset D}.

(** The loop that flattens an n-d matrix into a 2-d one: for every
    dimension of the first dataset other than lon and lat, both
    datasets are cut down to their first label along it. *)
Fixpoint select_first (ds : list string) (uwind vwind : D)
  : result (D * D) :=
  match ds with
  | [] => Ret (uwind, vwind)
  | dim :: rest =>
      if is_spatial dim then select_first rest uwind vwind
      else
        c <- getitem uwind dim ;;
        d <- item0 (values c) ;;
        uwind <- loc uwind dim d ;;
        c <- getitem vwind dim ;;
        d <- item0 (values c) ;;
        vwind <- loc vwind dim d ;;
        select_first rest uwind vwind
  end.

(** [minput_xarray_vector(uwind, vwind, u_varname, v_varname, skip,
    metadata)].  The component fields are read under the keys
    ['u_varname'] and ['v_varname'], as the source has them. *)
Definition minput_xarray_vector (uwind vwind : D)
           (u_varname v_varname : string) (skip : Z)
           (metadata0 : option metadata) : result vector_input :=
  (* flatten an nD matrix into a 2d matrix *)
  uv <- select_first (dims uwind) uwind vwind ;;
  let uwind := fst uv in
  let vwind := snd uv in
  (* extract values *)
  lat <- getitem uwind "lat" ;;
  let lat := astype_float64 (values lat) in
  lon <- getitem uwind "lon" ;;
  let lon := astype_float64 (values lon) in
  uwind_field <- getitem uwind "u_varname" ;;
  let uwind_field := squeeze (astype_float64 (values uwind_field)) in
  vwind_field <- getitem vwind "v_varname" ;;
  let vwind_field := squeeze (astype_float64 (values vwind_field)) in
  let '(lon, lat) := meshgrid lon lat in
  (* skip values and flatten *)
  uwind_field <- slice2 skip uwind_field ;;
  let uwind_field := flatten uwind_field in
  vwind_field <- slice2 skip vwind_field ;;
  let vwind_field := flatten vwind_field in
  lat <- slice2 skip lat ;;
  let lat := flatten lat in
  lon <- slice2 skip lon ;;
  let lon := flatten lon in
  (* put into magics minput function *)
  Ret (mk_vector_input "geographical" uwind_field vwind_field
                       lat lon metadata0).

(** The loop of [minput_xarray]: one dataset is cut down to its first
    label along every dimension other than lon and lat. *)
Fixpoint collapse_dims (ds : list string) (data0 : D) : result D :=
  match ds with
  | [] => Ret data0
  | dim :: rest =>
      if is_spatial dim then collapse_dims rest data0
      else
        c <- getitem data0 dim ;;
        d <- item0 (values c) ;;
        data0 <- loc data0 dim d ;;
        collapse_dims rest data0
  end.

(** [minput_xarray(data, varname, metadata)]. *)
Definition minput_xarray (data0 : D) (varname : string)
           (metadata0 : option metadata) : result dataset_field_input :=
  (* flatten an nD matrix into a 2d matrix *)
  data0 <- collapse_dims (dims data0) data0 ;;
  (* extract values *)
  lat <- getitem data0 "lat" ;;
  let lat := astype_float64 (values lat) in
  lon <- getitem data0 "lon" ;;
  let lon := astype_float64 (values lon) in
  field <- getitem data0 varname ;;
  let input_field_values := squeeze (astype_float64 (values field)) in
  (* set data meta data *)
  metadata1 <- match metadata0 with
               | None => v <- getitem data0 varname ;; Ret (attrs v)
               | Some m => Ret m
               end ;;
  (* put values into magics *)
  Ret (mk_dataset_field_input input_field_values lat lon (Some metadata1)).

End XarrayAdapters.

End Util.

Import Util.


(* ================================================================== *)
(** ** Sample inputs *)

Module Samples.

Definition grid (nlat nlon : nat) (l : list float) : ndarray float :=
  mk_ndarray [nlat; nlon] l.

(** A wind component on (time, level, lat, lon) = (1, 2, 2, 3), stored
    under [name]. *)
Definition wind_dataset (name : string) (l : list float) : mem_dataset :=
  [ ("time", mk_variable ["time"] (vector [6]%float) []);
    ("level", mk_variable ["level"] (vector [850; 500]%float) []);
    ("lat", mk_variable ["lat"] (vector [10; 20]%float) []);
    ("lon", mk_variable ["lon"] (vector [100; 110; 120]%float) []);
    (name, mk_variable ["time"; "level"; "lat"; "lon"]
             (mk_ndarray [1; 2; 2; 3] l)
             [("units", "m/s")]) ]%string.

Definition u12 : list float := [1; 2; 3; 4; 5; 6; 7; 8; 9; 10; 11; 12]%float.
Definition v12 : list float := [-1; -2; -3; -4; -5; -6; -7; -8; -9; -10; -11; -12]%float.

End Samples.

Import Samples.

(* ================================================================== *)
(** ** Vocabulary of the properties *)

(** The invariant of a vector field: [u] and [v] are arrays that squeeze
    to the same [nlat] x [nlon] grid, over [nlat] latitudes and [nlon]
    longitudes. *)
Definition grid_inputs (u v lon lat : ndarray float) (nlat nlon : nat) : Prop :=
  wf u /\ wf v
  /\ shape (squeeze u) = [nlat; nlon]
  /\ shape (squeeze v) = [nlat; nlon]
  /\ size lat = nlat /\ size lon = nlon.

(** The value at flat (row-major) position [p]. *)
Definition at_position (a : ndarray float) (p : nat) : float :=
  nth p (data a) nan.

(** The value at row [i] and column [j] of a grid with [ncols] columns. *)
Definition at_grid (ncols : nat) (a : ndarray float) (ij : nat * nat) : float :=
  at_position a (fst ij * ncols + snd ij).

(** The flat positions of an [nlat] x [nlon] grid that [[::skip, ::skip]]
    visits, in the order it visits them. *)
Definition strided_positions (skip : Z) (nlat nlon : nat) : list nat :=
  slice2_data skip nlat nlon 1 (seq 0 (nlat * nlon)).

(** A position survives when neither component is NaN there. *)
Definition survives (u v : ndarray float) (p : nat) : bool :=
  negb (is_nan (at_position u p)) && negb (is_nan (at_position v p)).

Definition kept_positions (skip : Z) (u v : ndarray float) (nlat nlon : nat)
  : list nat :=
  filter (survives u v) (strided_positions skip nlat nlon).

(** The record [r] with another [input_metadata]. *)
Definition set_metadata (r : vector_input) (md : option metadata)
  : vector_input :=
  mk_vector_input (input_type r)
                  (input_x_component_values r) (input_y_component_values r)
                  (input_latitude_values r) (input_longitude_values r) md.

(** The mask [~isnan(u) & ~isnan(v)] over the flattened components. *)
Definition nan_mask (us vs : list float) : list bool :=
  map (fun ab => andb (fst ab) (snd ab))
      (combine (map (fun x => negb (is_nan x)) us)
               (map (fun x => negb (is_nan x)) vs)).

(** [c] is the ceiling of [n / d]: the least integer with [n <= d * c]. *)
Definition is_ceil (c : Z) (n d : nat) : Prop :=
  (Z.of_nat d * (c - 1) < Z.of_nat n <= Z.of_nat d * c)%Z.

(** How many elements of [l] lie in the closed interval [lo, hi]. *)
Fixpoint count_within (lo hi : float) (l : list float) : nat :=
  match l with
  | [] => 0
  | x :: t =>
      if (PrimFloat.leb lo x && PrimFloat.leb x hi)%bool
      then S (count_within lo hi t)
      else count_within lo hi t
  end.

(** The number of coordinates [get_skip_vector] sizes the stride on: all
    of them without a region, those inside it otherwise. *)
Definition lon_count (map_region : option region) (lon : list float) : nat :=
  match map_region with
  | None => length lon
  | Some r => count_within (region0 r) (region1 r) lon
  end.

Definition lat_count (map_region : option region) (lat : list float) : nat :=
  match map_region with
  | None => length lat
  | Some r => count_within (region2 r) (region3 r) lat
  end.

(** The indices below [n] that are multiples of [s], in increasing order. *)
Definition multiples (s n : nat) : list nat :=
  filter (fun i => i mod s =? 0) (seq 0 n).

(** The indices [range(n)[::k]] visits: 0, k, 2k, ... for a positive
    step, n-1, n-1-|k|, ... for a negative one. *)
Definition axis_indices (k : Z) (n : nat) : list nat :=
  if (0 <? k)%Z then multiples (Z.to_nat k) n
  else map (fun i => n - 1 - i) (multiples (Z.to_nat (- k)) n).

(** The (row, column) pairs [[::k, ::k]] visits on an [nlat] x [nlon] grid,
    row by row. *)
Definition grid_points (k : Z) (nlat nlon : nat) : list (nat * nat) :=
  list_prod (axis_indices k nlat) (axis_indices k nlon).

(** A grid point survives when neither component is NaN there. *)
Definition survives_at (ncols : nat) (u v : ndarray float) (ij : nat * nat)
  : bool :=
  negb (is_nan (at_grid ncols u ij)) && negb (is_nan (at_grid ncols v ij)).

(* ================================================================== *)
(** ** Facts about lists and slicing *)

Section ListFacts.

Context {A B : Type}.

Lemma stride_from_map (f : A -> B) (s : nat) (l : list A) :
  forall c, stride_from s c (map f l) = map f (stride_from s c l).
Proof.
  induction l as [|x t IH]; intros c; simpl; [reflexivity|].
  destruct c; simpl; now rewrite IH.
Qed.

Lemma stride_from_incl (s : nat) (l : list A) :
  forall c x, In x (stride_from s c l) -> In x l.
Proof.
  induction l as [|y t IH]; intros c x; simpl; [tauto|].
  destruct c; simpl; intros Hin.
  - destruct Hin as [->|Hin]; [now left|right; eauto].
  - right; eauto.
Qed.

Lemma stride_from_length (s : nat) (l : list A) :
  0 < s ->
  forall c, length (stride_from s c l) = (length l - c + (s - 1)) / s.
Proof.
  intros Hs. induction l as [|y t IH]; intros c; simpl.
  - symmetry. apply Nat.div_small. lia.
  - destruct c; cbn [stride_from length]; rewrite IH; [|reflexivity].
    change (S (length t) - 0) with (S (length t)).
    replace (S (length t) + (s - 1)) with (length t + 1 * s) by lia.
    rewrite Nat.div_add by lia.
    destruct (le_lt_dec (s - 1) (length t)) as [Hle|Hlt].
    + replace (length t - (s - 1) + (s - 1)) with (length t) by lia. lia.
    + replace (length t - (s - 1) + (s - 1)) with (s - 1) by lia.
      rewrite !Nat.div_small by lia. reflexivity.
Qed.

Lemma slice_step_map (f : A -> B) (k : Z) (l : list A) :
  slice_step k (map f l) = map f (slice_step k l).
Proof.
  unfold slice_step. destruct (0 <? k)%Z.
  - apply stride_from_map.
  - rewrite <- map_rev. apply stride_from_map.
Qed.

Lemma slice_step_incl (k : Z) (l : list A) (x : A) :
  In x (slice_step k l) -> In x l.
Proof.
  unfold slice_step. destruct (0 <? k)%Z; intros Hin.
  - eapply stride_from_incl; eauto.
  - apply in_rev. eapply stride_from_incl; eauto.
Qed.

Lemma slice_step_length (k : Z) (l : list A) :
  k <> 0%Z -> length (slice_step k l) = slice_len k (length l).
Proof.
  intros Hk. unfold slice_step, slice_len.
  destruct (0 <? k)%Z eqn:Hpos.
  - apply Z.ltb_lt in Hpos.
    rewrite stride_from_length by lia.
    replace (Z.abs_nat k) with (Z.to_nat k) by lia.
    f_equal. lia.
  - apply Z.ltb_ge in Hpos.
    rewrite stride_from_length by lia.
    rewrite length_rev.
    replace (Z.abs_nat k) with (Z.to_nat (- k)) by lia.
    f_equal. lia.
Qed.

Lemma chunks_length (m n : nat) :
  forall l : list A, length (chunks m n l) = n.
Proof. induction n; intros l; simpl; [reflexivity|now rewrite IHn]. Qed.

Lemma chunks_map (f : A -> B) (m n : nat) :
  forall l, chunks m n (map f l) = map (map f) (chunks m n l).
Proof.
  induction n; intros l; simpl; [reflexivity|].
  now rewrite firstn_map, skipn_map, IHn.
Qed.

Lemma In_firstn (n : nat) (l : list A) (x : A) :
  In x (firstn n l) -> In x l.
Proof.
  intros Hin. rewrite <- (firstn_skipn n l). apply in_or_app. now left.
Qed.

Lemma In_skipn (n : nat) (l : list A) (x : A) :
  In x (skipn n l) -> In x l.
Proof.
  intros Hin. rewrite <- (firstn_skipn n l). apply in_or_app. now right.
Qed.

Lemma chunks_incl (m n : nat) :
  forall (l c : list A) x, In c (chunks m n l) -> In x c -> In x l.
Proof.
  induction n; intros l c x; simpl; [tauto|].
  intros [<-|Hc] Hx.
  - eapply In_firstn; eauto.
  - eapply In_skipn. eapply IHn; eauto.
Qed.

Lemma chunks_Forall_length (m n : nat) :
  forall l : list A, n * m <= length l ->
    Forall (fun c => length c = m) (chunks m n l).
Proof.
  induction n; intros l Hl; simpl; constructor.
  - rewrite length_firstn. lia.
  - apply IHn. rewrite length_skipn. lia.
Qed.

Lemma concat_length_const (q : nat) (L : list (list A)) :
  Forall (fun c => length c = q) L -> length (concat L) = length L * q.
Proof.
  induction 1 as [|c L Hc _ IH]; simpl; [reflexivity|].
  rewrite length_app, IH, Hc. reflexivity.
Qed.

End ListFacts.

Section SliceFacts.

Context {A B : Type}.

Lemma slice2_data_map (f : A -> B) (k : Z) (d0 d1 b : nat) (l : list A) :
  slice2_data k d0 d1 b (map f l) = map f (slice2_data k d0 d1 b l).
Proof.
  unfold slice2_data.
  rewrite chunks_map, slice_step_map, map_map, concat_map, map_map.
  f_equal. apply map_ext. intros row.
  now rewrite chunks_map, slice_step_map, concat_map.
Qed.

Lemma slice2_data_incl (k : Z) (d0 d1 b : nat) (l : list A) (x : A) :
  In x (slice2_data k d0 d1 b l) -> In x l.
Proof.
  unfold slice2_data. intros Hin.
  apply in_concat in Hin as (c & Hc & Hx).
  apply in_map_iff in Hc as (row & <- & Hrow).
  apply slice_step_incl in Hrow.
  apply in_concat in Hx as (blk & Hblk & Hx).
  apply slice_step_incl in Hblk.
  eapply chunks_incl; [exact Hrow|].
  eapply chunks_incl; eauto.
Qed.

Lemma slice2_data_length (k : Z) (d0 d1 b : nat) (l : list A) :
  k <> 0%Z -> d0 * (d1 * b) <= length l ->
  length (slice2_data k d0 d1 b l) = slice_len k d0 * (slice_len k d1 * b).
Proof.
  intros Hk Hl. unfold slice2_data.
  rewrite (concat_length_const (slice_len k d1 * b)).
  - now rewrite length_map, slice_step_length, chunks_length.
  - apply Forall_forall. intros c Hc.
    apply in_map_iff in Hc as (row & <- & Hrow).
    apply slice_step_incl in Hrow.
    pose proof (chunks_Forall_length (d1 * b) d0 l Hl) as Hall.
    rewrite Forall_forall in Hall. specialize (Hall row Hrow).
    rewrite (concat_length_const b).
    + now rewrite slice_step_length, chunks_length.
    + apply Forall_forall. intros blk Hblk.
      apply slice_step_incl in Hblk.
      pose proof (chunks_Forall_length b d1 row) as Hall'.
      rewrite Forall_forall in Hall'. apply Hall'; [lia|exact Hblk].
Qed.

Lemma select_map_filter (m : A -> bool) (f : A -> B) (l : list A) :
  select (map m l) (map f l) = map f (filter m l).
Proof.
  induction l as [|x t IH]; simpl; [reflexivity|].
  destruct (m x); simpl; now rewrite IH.
Qed.

Lemma select_length_le (m : list bool) :
  forall l : list A, length (select m l) <= length l.
Proof.
  induction m as [|b m IH]; intros [|x l]; simpl; try lia.
  destruct b; simpl; specialize (IH l); lia.
Qed.

Lemma combine_map_same {C : Type} (f : A -> B) (g : A -> C) (l : list A) :
  combine (map f l) (map g l) = map (fun x => (f x, g x)) l.
Proof. induction l; simpl; congruence. Qed.

End SliceFacts.

(** The selected elements satisfy what the mask tests. *)
Lemma select_and_Forall {A B : Type} (p : A -> bool) (q : B -> bool) :
  forall (l1 : list A) (l2 : list B),
    let m := map (fun ab => andb (fst ab) (snd ab))
                 (combine (map p l1) (map q l2)) in
    Forall (fun x => p x = true) (select m l1)
    /\ Forall (fun y => q y = true) (select m l2).
Proof.
  induction l1 as [|x l1 IH]; intros [|y l2]; simpl;
    try (split; constructor).
  destruct (IH l2) as [IH1 IH2].
  destruct (p x) eqn:Hp, (q y) eqn:Hq; simpl; split; auto.
Qed.

Lemma select_length_same {A B : Type} (m : list bool) :
  forall (l : list A) (l' : list B),
    length l = length l' -> length (select m l) = length (select m l').
Proof.
  induction m as [|b m IH]; intros [|x l] [|y l'] Hlen; simpl in *;
    try reflexivity; try discriminate.
  destruct b; simpl; rewrite (IH l l'); auto.
Qed.

Lemma filter_nil_iff {A : Type} (f : A -> bool) (l : list A) :
  filter f l = [] <-> forall x, In x l -> f x = false.
Proof.
  induction l as [|x t IH]; simpl.
  - split; [tauto|reflexivity].
  - destruct (f x) eqn:Hfx; split.
    + discriminate.
    + intros Hall. specialize (Hall x (or_introl eq_refl)). congruence.
    + intros Hnil y [<-|Hy]; [assumption|]. now apply IH.
    + intros Hall. apply IH. intros y Hy. apply Hall. now right.
Qed.

Lemma ceil_le (n s : nat) : 1 <= s -> (n + s - 1) / s <= n.
Proof.
  intros Hs. destruct n as [|n].
  - rewrite Nat.div_small; lia.
  - apply Nat.Div0.div_le_upper_bound. nia.
Qed.

(** *** Arrays seen through their flat positions *)

Lemma map_nth_seq {A : Type} (d : A) (l : list A) :
  map (fun p => nth p l d) (seq 0 (length l)) = l.
Proof.
  induction l as [|x t IH]; simpl; [reflexivity|].
  f_equal. rewrite <- seq_shift, map_map. exact IH.
Qed.

Lemma seq_shift_add (n a len : nat) :
  seq (a + n) len = map (fun p => p + n) (seq a len).
Proof.
  revert a. induction len as [|len IH]; intros a; simpl; [reflexivity|].
  f_equal. apply (IH (S a)).
Qed.

Lemma flat_map_repeat_positions {A : Type} (d : A) (n : nat) (l : list A) :
  flat_map (fun v => repeat v n) l
  = map (fun p => nth (p / n) l d) (seq 0 (length l * n)).
Proof.
  destruct n as [|n].
  { rewrite Nat.mul_0_r. simpl. induction l; simpl; auto. }
  induction l as [|x t IH]; [reflexivity|].
  cbn [flat_map length]. rewrite IH.
  replace (S (length t) * S n) with (S n + length t * S n) by lia.
  rewrite seq_app, map_app. f_equal.
  - transitivity (map (fun _ : nat => x) (seq 0 (S n))).
    + now rewrite map_const, length_seq.
    + apply map_ext_in. intros p Hp. apply in_seq in Hp.
      rewrite Nat.div_small by lia. reflexivity.
  - rewrite (seq_shift_add (S n) 0), map_map.
    apply map_ext. intros p.
    replace (p + S n) with (p + 1 * S n) by lia.
    rewrite Nat.div_add by lia.
    replace (p / S n + 1) with (S (p / S n)) by lia. reflexivity.
Qed.

Lemma concat_repeat_positions {A : Type} (d : A) (m : nat) (l : list A) :
  concat (repeat l m)
  = map (fun p => nth (p mod length l) l d) (seq 0 (m * length l)).
Proof.
  induction m as [|m IH]; [reflexivity|].
  cbn [repeat concat]. rewrite IH.
  replace (S m * length l) with (length l + m * length l) by lia.
  rewrite seq_app, map_app. f_equal.
  - rewrite <- (map_nth_seq d l) at 1.
    apply map_ext_in. intros p Hp. apply in_seq in Hp.
    rewrite Nat.mod_small by lia. reflexivity.
  - rewrite (seq_shift_add (length l) 0), map_map.
    apply map_ext_in. intros p Hp.
    destruct l as [|x t]; [now destruct (p + 0), p|].
    replace (p + length (x :: t)) with (p + 1 * length (x :: t)) by lia.
    rewrite Nat.Div0.mod_add. reflexivity.
Qed.

(** *** squeeze *)

Lemma size_of_squeeze (sh : list nat) :
  size_of (filter (fun d => negb (d =? 1)) sh) = size_of sh.
Proof.
  induction sh as [|d sh IH]; simpl; [reflexivity|].
  destruct (Nat.eqb_spec d 1) as [->|Hd]; simpl; lia.
Qed.

Lemma squeeze_no_unit_axis {A : Type} (a : ndarray A) :
  ~ In 1 (shape (squeeze a)).
Proof.
  unfold squeeze. cbn [shape]. intros Hin.
  apply filter_In in Hin as [_ Hne]. discriminate Hne.
Qed.

Lemma squeeze_wf {A : Type} (a : ndarray A) : wf a -> wf (squeeze a).
Proof.
  unfold wf, squeeze. cbn [shape data]. now rewrite size_of_squeeze.
Qed.

Lemma shape_eqb_refl (sh : list nat) : shape_eqb sh sh = true.
Proof. unfold shape_eqb. destruct (list_eq_dec Nat.eq_dec sh sh); congruence. Qed.

Lemma shape_eqb_eq (s t : list nat) : shape_eqb s t = true -> s = t.
Proof. unfold shape_eqb. destruct (list_eq_dec Nat.eq_dec s t); congruence. Qed.

Lemma shape_eqb_neq (s t : list nat) : s <> t -> shape_eqb s t = false.
Proof.
  unfold shape_eqb. destruct (list_eq_dec Nat.eq_dec s t); congruence.
Qed.

(** *** Masks over flattened arrays *)

Lemma select_nil_r {A : Type} (m : list bool) : select m (@nil A) = [].
Proof. destruct m as [|[|] m]; reflexivity. Qed.

(** Indexing a flattened array with a one-dimensional mask: a mask of the
    same length selects, an empty mask gives an empty array, any other
    mask is rejected. *)
Lemma getitem_mask_flat {A : Type} (l : list A) (idx : ndarray bool) :
  shape idx = [length (data idx)] ->
  getitem_mask (mk_ndarray [length l] l) idx
  = if length (data idx) =? length l
    then Ret (vector (select (data idx) l))
    else if length (data idx) =? 0 then Ret (mk_ndarray [0] [])
         else Raise IndexError.
Proof.
  intros Hsh. unfold getitem_mask, vector. cbn [shape data]. rewrite Hsh.
  destruct (Nat.eqb_spec (length (data idx)) (length l)) as [Heq|Hne].
  - rewrite Heq, shape_eqb_refl. reflexivity.
  - rewrite shape_eqb_neq by congruence.
    unfold mask_axes_ok. cbn [length combine forallb fst snd Nat.leb andb].
    destruct (Nat.eqb_spec (length (data idx)) 0) as [Hz|Hnz].
    + apply length_zero_iff_nil in Hz. rewrite Hz. reflexivity.
    + cbn [orb]. rewrite (proj2 (Nat.eqb_neq _ _) Hne). reflexivity.
Qed.

(** What [m1 & m2] gives on the masks of two flattened arrays. *)
Lemma logical_and_flat (l1 l2 : list bool) :
  logical_and (mk_ndarray [length l1] l1) (mk_ndarray [length l2] l2)
  = if length l1 =? length l2
    then Ret (mk_ndarray [length l1]
                (map (fun p => andb (fst p) (snd p)) (combine l1 l2)))
    else match l1, l2 with
         | [x], l => Ret (mk_ndarray [length l] (map (andb x) l))
         | l, [y] => Ret (mk_ndarray [length l] (map (fun x => andb x y) l))
         | _, _ => Raise ValueError
         end.
Proof.
  unfold logical_and. cbn [shape data].
  destruct (Nat.eqb_spec (length l1) (length l2)) as [Heq|Hne].
  - rewrite Heq, shape_eqb_refl. reflexivity.
  - rewrite shape_eqb_neq by congruence.
    destruct l1 as [|x [|x' l1]], l2 as [|y [|y' l2]];
      cbn [length] in *; try reflexivity; congruence.
Qed.

Lemma logical_and_flat_shape (l1 l2 : list bool) (idx : ndarray bool) :
  logical_and (mk_ndarray [length l1] l1) (mk_ndarray [length l2] l2)
  = Ret idx ->
  shape idx = [length (data idx)].
Proof.
  rewrite logical_and_flat.
  destruct (Nat.eqb_spec (length l1) (length l2)) as [Heq|Hne].
  - intros H. injection H as <-. cbn [shape data].
    rewrite length_map, length_combine, Heq, Nat.min_id. reflexivity.
  - destruct l1 as [|x [|x' l1]], l2 as [|y [|y' l2]];
      intros H; try discriminate H; injection H as <-;
      cbn [shape data length map]; rewrite ?length_map; reflexivity.
Qed.

Lemma logical_and_flat_gen (l1 l2 : list bool) (n1 n2 : nat) :
  n1 = length l1 -> n2 = length l2 ->
  logical_and (mk_ndarray [n1] l1) (mk_ndarray [n2] l2)
  = if length l1 =? length l2
    then Ret (mk_ndarray [length l1]
                (map (fun p => andb (fst p) (snd p)) (combine l1 l2)))
    else match l1, l2 with
         | [x], l => Ret (mk_ndarray [length l] (map (andb x) l))
         | l, [y] => Ret (mk_ndarray [length l] (map (fun x => andb x y) l))
         | _, _ => Raise ValueError
         end.
Proof. intros -> ->. apply logical_and_flat. Qed.

(** *** The vector adapter on a grid *)

Lemma grid_data_positions (a : ndarray float) (nlat nlon : nat) :
  wf a -> shape (squeeze a) = [nlat; nlon] ->
  data a = map (at_position a) (seq 0 (nlat * nlon)).
Proof.
  intros Hwf Hsh. unfold at_position.
  replace (nlat * nlon) with (length (data a)).
  - symmetry. apply map_nth_seq.
  - rewrite Hwf, <- size_of_squeeze.
    unfold squeeze in Hsh. cbn [shape] in Hsh. rewrite Hsh. simpl. lia.
Qed.

(** What [minput_2d_vector] computes on a well-formed vector field with a
    nonzero stride: the values at the kept positions, or [None] when no
    position is kept. *)
Lemma minput_2d_vector_grid (u v lon lat : ndarray float) (nlat nlon : nat)
      (skip : Z) (md : option metadata) :
  grid_inputs u v lon lat nlat nlon -> skip <> 0%Z ->
  minput_2d_vector u v lon lat skip md
  = let ps := kept_positions skip u v nlat nlon in
    if length ps =? 0 then Ret None
    else Ret (Some (mk_vector_input "geographical"
                      (vector (map (at_position u) ps))
                      (vector (map (at_position v) ps))
                      (vector (map (fun p => at_position lat (p / nlon)) ps))
                      (vector (map (fun p => at_position lon (p mod nlon)) ps))
                      (Some match md with
                            | None => default_vector_metadata
                            | Some m => m
                            end))).
Proof.
  intros (Hwu & Hwv & Hsu & Hsv & Hlat & Hlon) Hk.
  pose proof (grid_data_positions u nlat nlon Hwu Hsu) as Eu.
  pose proof (grid_data_positions v nlat nlon Hwv Hsv) as Ev.
  unfold size in Hlat, Hlon.
  assert (Elat : flat_map (fun x => repeat x nlon) (data lat)
                 = map (fun p => at_position lat (p / nlon))
                       (seq 0 (nlat * nlon))).
  { rewrite (flat_map_repeat_positions nan), Hlat. reflexivity. }
  assert (Elon : concat (repeat (data lon) nlat)
                 = map (fun p => at_position lon (p mod nlon))
                       (seq 0 (nlat * nlon))).
  { rewrite (concat_repeat_positions nan), Hlon. reflexivity. }
  apply Z.eqb_neq in Hk.
  unfold minput_2d_vector, astype_float64, kept_positions, strided_positions.
  cbn [meshgrid]. unfold slice2. rewrite Hsu, Hsv.
  cbn [shape squeeze data]. rewrite Hk, Hlat, Hlon.
  cbn [bind flatten data shape size_of fold_right].
  set (ps := slice2_data skip nlat nlon 1 (seq 0 (nlat * nlon))).
  assert (Eu' : slice2_data skip nlat nlon 1 (data u) = map (at_position u) ps)
    by (rewrite Eu at 1; apply slice2_data_map).
  assert (Ev' : slice2_data skip nlat nlon 1 (data v) = map (at_position v) ps)
    by (rewrite Ev at 1; apply slice2_data_map).
  rewrite Elat, Elon, Eu', Ev', !slice2_data_map. fold ps.
  unfold logical_and, invert, isnan, map_array, getitem_mask, size, flatten.
  cbn [shape data]. rewrite !length_map, shape_eqb_refl.
  cbn [bind shape data].
  rewrite !map_map, combine_map_same, map_map.
  rewrite ?length_map, ?shape_eqb_refl. cbn [bind shape data].
  rewrite !select_map_filter. rewrite ?length_map, ?shape_eqb_refl.
  cbn [bind shape data fst snd]. rewrite ?length_map.
  fold (survives u v). unfold vector. rewrite ?length_map.
  destruct (length (filter (survives u v) ps) =? 0); reflexivity.
Qed.

(* ================================================================== *)
(** ** The stride estimator *)

Lemma ceil_div_is_ceil (n : nat) (d : positive) :
  is_ceil (ceil_div n d) n (Pos.to_nat d).
Proof.
  unfold is_ceil, ceil_div, Qceiling, Qfloor, Qopp. cbn [Qnum Qden].
  rewrite positive_nat_Z.
  pose proof (Z.div_mod (- Z.of_nat n) (Z.pos d) ltac:(lia)) as Hdm.
  pose proof (Z.mod_pos_bound (- Z.of_nat n) (Z.pos d) ltac:(lia)) as Hb.
  nia.
Qed.

Lemma restrict_vector (lo hi : float) (l : list float) :
  exists l', restrict (vector l) lo hi = Ret (vector l')
             /\ length l' = count_within lo hi l.
Proof.
  unfold restrict, logical_and, ge_scalar, le_scalar, map_array, vector.
  cbn [shape data]. rewrite shape_eqb_refl. cbn [bind].
  unfold getitem_mask. cbn [shape data]. rewrite shape_eqb_refl.
  eexists; split; [reflexivity|].
  induction l as [|x t IH]; [reflexivity|].
  cbn [map combine select count_within fst snd].
  destruct (PrimFloat.leb lo x && PrimFloat.leb x hi)%bool;
    cbn [length]; now rewrite IH.
Qed.

(** [C1] For longitude and latitude vectors and an optional region,
    [get_skip_vector] returns [max(ceil(nlon/60), ceil(nlat/30))], where
    [nlon] and [nlat] count the longitudes and latitudes inside the region,
    or are the full lengths when the region is [None]; when the region
    leaves both vectors empty the result is 0. *)
Theorem get_skip_vector_stride :
  forall lon lat : list float,
    (exists a b : Z,
        get_skip_vector (vector lon) (vector lat) None = Ret (Z.max a b)
        /\ is_ceil a (length lon) 60 /\ is_ceil b (length lat) 30)
    /\ (forall r : region,
           exists a b : Z,
             get_skip_vector (vector lon) (vector lat) (Some r)
             = Ret (Z.max a b)
             /\ is_ceil a (count_within (region0 r) (region1 r) lon) 60
             /\ is_ceil b (count_within (region2 r) (region3 r) lat) 30)
    /\ (forall r : region,
           count_within (region0 r) (region1 r) lon = 0 ->
           count_within (region2 r) (region3 r) lat = 0 ->
           get_skip_vector (vector lon) (vector lat) (Some r) = Ret 0%Z).
Proof.
  intros lon lat.
  assert (Hregion : forall r : region,
             get_skip_vector (vector lon) (vector lat) (Some r)
             = Ret (Z.max
                      (ceil_div (count_within (region0 r) (region1 r) lon) 60)
                      (ceil_div (count_within (region2 r) (region3 r) lat) 30))).
  { intros r. unfold get_skip_vector.
    destruct (restrict_vector (region0 r) (region1 r) lon) as (lon1 & -> & <-).
    destruct (restrict_vector (region2 r) (region3 r) lat) as (lat1 & -> & <-).
    reflexivity. }
  split; [|split].
  - exists (ceil_div (length lon) 60), (ceil_div (length lat) 30).
    split; [reflexivity|].
    split; [apply (ceil_div_is_ceil _ 60)|apply (ceil_div_is_ceil _ 30)].
  - intros r. rewrite Hregion. do 2 eexists. split; [reflexivity|].
    split; [apply (ceil_div_is_ceil _ 60)|apply (ceil_div_is_ceil _ 30)].
  - intros r Hlon Hlat. rewrite Hregion, Hlon, Hlat. reflexivity.
Qed.

Lemma get_skip_vector_stride_witness :
  get_skip_vector (vector [100; 110; 120]%float) (vector [10; 20]%float)
                  (Some (0, 50, 30, 60)%float)
  = Ret 0%Z.
Proof.
  apply (proj2 (proj2 (get_skip_vector_stride
                         [100; 110; 120]%float [10; 20]%float)));
    reflexivity.
Defined.

(* ================================================================== *)
(** ** The scalar adapter *)

(** [C9] [minput_2d] forwards the field without filtering or changing any
    value: the forwarded [input_field] is the squeezed float64 cast of the
    data, with the very same values (NaN and infinities included).  When
    the data has shape [(nlat, nlon)] over one-dimensional lat and lon of
    these lengths, and neither length is one, the forwarded field has shape
    [(len(lat), len(lon))] and the coordinate lists keep their lengths. *)
Theorem minput_2d_forwards_field :
  forall (data0 lon lat : ndarray float) (md : option metadata),
    let r := minput_2d data0 lon lat md in
    input_field r = squeeze (astype_float64 data0)
    /\ data (input_field r) = data data0
    /\ field_input_metadata r = md
    /\ (forall nlat nlon : nat,
           shape data0 = [nlat; nlon] ->
           shape lat = [nlat] -> shape lon = [nlon] ->
           nlat <> 1 -> nlon <> 1 ->
           shape (input_field r) = [nlat; nlon]
           /\ len (input_latitudes_list r) = Ret nlat
           /\ len (input_longitudes_list r) = Ret nlon).
Proof.
  intros data0 lon lat md r. subst r.
  unfold minput_2d, astype_float64. cbn [input_field field_input_metadata
    input_latitudes_list input_longitudes_list].
  split; [reflexivity|]. split; [reflexivity|]. split; [reflexivity|].
  intros nlat nlon Hdata Hlat Hlon Hnlat Hnlon.
  unfold len, squeeze. cbn [shape]. rewrite Hdata, Hlat, Hlon.
  cbn [filter].
  rewrite (proj2 (Nat.eqb_neq nlat 1) Hnlat).
  rewrite (proj2 (Nat.eqb_neq nlon 1) Hnlon).
  cbn [negb]. repeat split.
Qed.

Lemma minput_2d_forwards_field_witness :
  let r := minput_2d (grid 2 3 [nan; infinity; 3; 4; 5; 6]%float)
                     (vector [100; 110; 120]%float) (vector [10; 20]%float)
                     None in
  shape (input_field r) = [2; 3]
  /\ len (input_latitudes_list r) = Ret 2
  /\ len (input_longitudes_list r) = Ret 3.
Proof.
  apply (proj2 (proj2 (proj2
           (minput_2d_forwards_field
              (grid 2 3 [nan; infinity; 3; 4; 5; 6]%float)
              (vector [100; 110; 120]%float) (vector [10; 20]%float) None)))
           2 3); try reflexivity; lia.
Defined.

(** A single-row field over one latitude has the documented shape
    [(len(lat), len(lon))], and is forwarded with another one. *)
Lemma minput_2d_single_row_shape :
  let data0 := grid 1 3 [1; 2; 3]%float in
  let lon := vector [100; 110; 120]%float in
  let lat := vector [10]%float in
  exists nlat nlon : nat,
    len lat = Ret nlat /\ len lon = Ret nlon
    /\ shape data0 = [nlat; nlon]
    /\ shape (input_field (minput_2d data0 lon lat None)) = [3]
    /\ shape (input_field (minput_2d data0 lon lat None)) <> [nlat; nlon].
Proof.
  intros data0 lon lat. exists 1, 3.
  repeat split; try reflexivity. vm_compute. discriminate.
Qed.

(* ================================================================== *)
(** ** The vector adapter *)

(** [C7] The metadata argument decides the forwarded metadata and nothing
    else.  Called with [metadata=None], [minput_2d_vector] forwards exactly
    the default mapping [{'units': 'm/s', 'long_name': 'wind field'}];
    a mapping the caller supplies is forwarded unmodified; whether the
    adapter raises, returns [None] or returns a record, and the four lists
    of that record, do not depend on the metadata; and on a well-formed
    field with a surviving point the record is returned. *)
Theorem minput_2d_vector_metadata :
  forall (udata vdata lon lat : ndarray float) (skip : Z),
    (forall md : option metadata,
        minput_2d_vector udata vdata lon lat skip md
        = match minput_2d_vector udata vdata lon lat skip None with
          | Ret (Some r) =>
              Ret (Some (set_metadata r
                           (Some match md with
                                 | None =>
                                     [("units", "m/s");
                                      ("long_name", "wind field")]%string
                                 | Some m => m
                                 end)))
          | other => other
          end)
    /\ (forall r : vector_input,
           minput_2d_vector udata vdata lon lat skip None = Ret (Some r) ->
           input_metadata r
           = Some [("units", "m/s"); ("long_name", "wind field")]%string)
    /\ (forall (m : metadata) (r : vector_input),
           minput_2d_vector udata vdata lon lat skip (Some m) = Ret (Some r) ->
           input_metadata r = Some m)
    /\ (forall (nlat nlon : nat) (md : option metadata),
           grid_inputs udata vdata lon lat nlat nlon -> skip <> 0%Z ->
           kept_positions skip udata vdata nlat nlon <> [] ->
           exists r : vector_input,
             minput_2d_vector udata vdata lon lat skip md = Ret (Some r)
             /\ input_metadata r
                = Some match md with
                       | None =>
                           [("units", "m/s");
                            ("long_name", "wind field")]%string
                       | Some m => m
                       end).
Proof.
  intros udata vdata lon lat skip.
  assert (Hfact : forall md : option metadata,
             minput_2d_vector udata vdata lon lat skip md
             = match minput_2d_vector udata vdata lon lat skip None with
               | Ret (Some r) =>
                   Ret (Some (set_metadata r
                                (Some match md with
                                      | None => default_vector_metadata
                                      | Some m => m
                                      end)))
               | other => other
               end).
  { intros md. unfold minput_2d_vector. cbn [meshgrid].
    repeat match goal with
           | |- context [bind ?c _] =>
               lazymatch c with
               | context [bind] => fail
               | _ => destruct c; cbn [bind]; [reflexivity|]
               end
           end.
    match goal with
    | |- context [if ?b then _ else _] => destruct b; [reflexivity|]
    end.
    repeat match goal with
           | |- context [bind ?c _] =>
               lazymatch c with
               | context [bind] => fail
               | _ => destruct c; cbn [bind]; [reflexivity|]
               end
           end.
    reflexivity. }
  split; [exact Hfact|]. split; [|split].
  - intros r H. unfold minput_2d_vector in H. cbn [meshgrid] in H.
    bind_inv H.
    match type of H with
    | (if ?b then _ else _) = _ => destruct b; [discriminate H|]
    end.
    bind_inv H. injection H as <-. reflexivity.
  - intros m r H. unfold minput_2d_vector in H. cbn [meshgrid] in H.
    bind_inv H.
    match type of H with
    | (if ?b then _ else _) = _ => destruct b; [discriminate H|]
    end.
    bind_inv H. injection H as <-. reflexivity.
  - intros nlat nlon md Hgrid Hk Hkept.
    rewrite (minput_2d_vector_grid _ _ _ _ _ _ _ md Hgrid Hk). cbn zeta.
    destruct (kept_positions skip udata vdata nlat nlon) as [|p ps];
      [contradiction|].
    cbn [length Nat.eqb]. eexists. split; reflexivity.
Qed.

Lemma minput_2d_vector_metadata_witness :
  let u := grid 2 2 (1 :: repeat nan 3)%float in
  let v := grid 2 2 (2 :: repeat nan 3)%float in
  let lon := vector [100; 110]%float in
  let lat := vector [10; 20]%float in
  (exists r : vector_input,
      minput_2d_vector u v lon lat 1 None = Ret (Some r)
      /\ input_metadata r
         = Some [("units", "m/s"); ("long_name", "wind field")]%string)
  /\ (exists r : vector_input,
         minput_2d_vector u v lon lat 1 (Some [("units", "K")]%string)
         = Ret (Some r)
         /\ input_metadata r = Some [("units", "K")]%string).
Proof.
  intros u v lon lat.
  pose proof (proj2 (proj2 (proj2
                (minput_2d_vector_metadata u v lon lat 1%Z)))) as Hret.
  split.
  - apply (Hret 2 2 None); [repeat split; reflexivity|lia|].
    vm_compute. discriminate.
  - apply (Hret 2 2 (Some [("units", "K")]%string));
      [repeat split; reflexivity|lia|].
    vm_compute. discriminate.
Defined.

(** For a stride of zero the slicing step raises, whatever the arrays. *)
Lemma slice2_zero {A : Type} (a : ndarray A) : raises (slice2 0 a).
Proof.
  unfold slice2, raises. destruct (shape a) as [|d0 [|d1 rest]]; cbn; eauto.
Qed.

Lemma minput_2d_vector_zero (u v lon lat : ndarray float)
      (md : option metadata) :
  raises (minput_2d_vector u v lon lat 0 md).
Proof.
  unfold minput_2d_vector. cbn [meshgrid].
  destruct (slice2_zero (squeeze (astype_float64 u))) as [e ->].
  exists e. reflexivity.
Qed.

(** [C10] [minput_2d_vector] returns normally only for a nonzero [skip]:
    for [skip = 0], a value [get_skip_vector] produces when the region
    leaves the coordinate vectors empty, the stride slicing fails and the
    adapter raises instead of returning a record. *)
Theorem minput_2d_vector_skip_nonzero :
  (forall (u v lon lat : ndarray float) (md : option metadata),
      raises (minput_2d_vector u v lon lat 0 md))
  /\ (exists (lon lat : ndarray float) (r : region),
         get_skip_vector lon lat (Some r) = Ret 0%Z)
  /\ (forall (u v lon lat : ndarray float) (skip : Z) (md : option metadata)
             (res : option vector_input),
         minput_2d_vector u v lon lat skip md = Ret res -> skip <> 0%Z).
Proof.
  split; [exact minput_2d_vector_zero|]. split.
  - exists (vector [100; 110; 120]%float), (vector [10; 20]%float),
      (0, 50, 30, 60)%float.
    reflexivity.
  - intros u v lon lat skip md res Hret ->.
    destruct (minput_2d_vector_zero u v lon lat md) as [e He].
    congruence.
Qed.

Lemma minput_2d_vector_skip_nonzero_witness : (1 <> 0)%Z.
Proof.
  refine (proj2 (proj2 minput_2d_vector_skip_nonzero)
            (grid 2 2 [1; 2; 3; 4]%float) (grid 2 2 [5; 6; 7; 8]%float)
            (vector [100; 110]%float) (vector [10; 20]%float) 1%Z None _ _).
  vm_compute. reflexivity.
Defined.

(** A negative stride walks the grid backwards and returns a record. *)
Lemma minput_2d_vector_negative_skip :
  (exists r : vector_input,
      minput_2d_vector (grid 2 2 [1; 2; 3; 4]%float)
                       (grid 2 2 [5; 6; 7; 8]%float)
                       (vector [100; 110]%float) (vector [10; 20]%float)
                       (-1) None
      = Ret (Some r)
      /\ data (input_x_component_values r) = [4; 3; 2; 1]%float)
  /\ ~ (-1 >= 1)%Z.
Proof.
  split; [|lia]. eexists. split; vm_compute; reflexivity.
Qed.

(** What a returned record holds: the four strided arrays, all of one
    length, each selected by the mask. *)
Lemma minput_2d_vector_inv (u v lon lat : ndarray float) (skip : Z)
      (md : option metadata) (r : vector_input) :
  minput_2d_vector u v lon lat skip md = Ret (Some r) ->
  exists us vs lats lons : ndarray float,
    slice2 skip (squeeze u) = Ret us
    /\ slice2 skip (squeeze v) = Ret vs
    /\ slice2 skip (snd (meshgrid (squeeze lon) (squeeze lat))) = Ret lats
    /\ slice2 skip (fst (meshgrid (squeeze lon) (squeeze lat))) = Ret lons
    /\ length (data vs) = length (data us)
    /\ length (data lats) = length (data us)
    /\ length (data lons) = length (data us)
    /\ input_x_component_values r
       = vector (select (nan_mask (data us) (data vs)) (data us))
    /\ input_y_component_values r
       = vector (select (nan_mask (data us) (data vs)) (data vs))
    /\ input_latitude_values r
       = vector (select (nan_mask (data us) (data vs)) (data lats))
    /\ input_longitude_values r
       = vector (select (nan_mask (data us) (data vs)) (data lons)).
Proof.
  intros H. unfold minput_2d_vector, astype_float64 in H.
  cbn [meshgrid] in H. bind_inv H.
  match type of H with
  | (if ?b then _ else _) = _ => destruct b eqn:Hsz; [discriminate H|]
  end.
  bind_inv H. injection H as <-.
  cbn [input_x_component_values input_y_component_values
       input_latitude_values input_longitude_values meshgrid fst snd].
  exists a, a0, a1, a2.
  unfold invert, isnan, map_array, flatten in E3. cbn [shape data] in E3.
  assert (Hidx : shape a3 = [length (data a3)]).
  { apply (logical_and_flat_shape (map negb (map is_nan (data a)))
                                  (map negb (map is_nan (data a0)))).
    rewrite !length_map. exact E3. }
  unfold flatten in E4, E5, E6, E7.
  rewrite (getitem_mask_flat _ _ Hidx) in E4.
  rewrite (getitem_mask_flat _ _ Hidx) in E5.
  rewrite (getitem_mask_flat _ _ Hidx) in E6.
  rewrite (getitem_mask_flat _ _ Hidx) in E7.
  assert (Hnz : length (data a3) <> 0).
  { intros Hz. apply length_zero_iff_nil in Hz. rewrite Hz in E4.
    cbn [length] in E4.
    destruct (0 =? length (data a)); injection E4 as <-;
      unfold size in Hsz; cbn in Hsz; discriminate Hsz. }
  apply Nat.eqb_neq in Hnz. rewrite Hnz in E4, E5, E6, E7.
  destruct (Nat.eqb_spec (length (data a3)) (length (data a))) as [L1|_];
    [|discriminate E4].
  destruct (Nat.eqb_spec (length (data a3)) (length (data a0))) as [L2|_];
    [|discriminate E5].
  destruct (Nat.eqb_spec (length (data a3)) (length (data a1))) as [L3|_];
    [|discriminate E6].
  destruct (Nat.eqb_spec (length (data a3)) (length (data a2))) as [L4|_];
    [|discriminate E7].
  injection E4 as <-. injection E5 as <-.
  injection E6 as <-. injection E7 as <-.
  assert (E3' : logical_and
                  (mk_ndarray [length (map negb (map is_nan (data a)))]
                              (map negb (map is_nan (data a))))
                  (mk_ndarray [length (map negb (map is_nan (data a0)))]
                              (map negb (map is_nan (data a0))))
                = Ret a3) by (rewrite !length_map; exact E3).
  rewrite logical_and_flat, !length_map in E3'.
  rewrite (proj2 (Nat.eqb_eq _ _) (eq_trans (eq_sym L1) L2)) in E3'.
  injection E3' as <-. cbn [data].
  rewrite !map_map. fold (nan_mask (data a) (data a0)).
  repeat split; try reflexivity; congruence.
Qed.

(** [C3] No NaN appears among the component values [minput_2d_vector]
    forwards: in every record it returns, every u and every v value is not
    NaN.  (Infinite values are not filtered.) *)
Theorem minput_2d_vector_no_nan :
  forall (u v lon lat : ndarray float) (skip : Z) (md : option metadata)
         (r : vector_input),
    minput_2d_vector u v lon lat skip md = Ret (Some r) ->
    Forall (fun x => is_nan x = false) (data (input_x_component_values r))
    /\ Forall (fun y => is_nan y = false) (data (input_y_component_values r)).
Proof.
  intros u v lon lat skip md r H.
  destruct (minput_2d_vector_inv _ _ _ _ _ _ _ H)
    as (us & vs & lats & lons & _ & _ & _ & _ & _ & _ & _ & Hx & Hy & _).
  rewrite Hx, Hy. cbn [vector data]. unfold nan_mask.
  destruct (select_and_Forall (fun x => negb (is_nan x))
              (fun x => negb (is_nan x)) (data us) (data vs)) as [Fx Fy].
  split; [eapply Forall_impl; [|exact Fx] | eapply Forall_impl; [|exact Fy]];
    intros x Hx'; now apply negb_true_iff in Hx'.
Qed.

Lemma minput_2d_vector_no_nan_witness :
  Forall (fun x => is_nan x = false) [1; 4]%float
  /\ Forall (fun y => is_nan y = false) [5; 8]%float.
Proof.
  refine (minput_2d_vector_no_nan
            (grid 2 2 [1; nan; 3; 4]%float) (grid 2 2 [5; 6; nan; 8]%float)
            (vector [100; 110]%float) (vector [10; 20]%float) 1%Z None
            (mk_vector_input "geographical" (vector [1; 4]%float)
               (vector [5; 8]%float) (vector [10; 20]%float)
               (vector [100; 110]%float) (Some default_vector_metadata)) _).
  vm_compute. reflexivity.
Defined.

(** An infinite component is forwarded: non-finite values do appear. *)
Lemma minput_2d_vector_forwards_infinity :
  exists r : vector_input,
    minput_2d_vector (grid 2 2 [infinity; 2; 3; 4]%float)
                     (grid 2 2 [5; 6; 7; neg_infinity]%float)
                     (vector [100; 110]%float) (vector [10; 20]%float)
                     1 None
    = Ret (Some r)
    /\ In infinity (data (input_x_component_values r))
    /\ In neg_infinity (data (input_y_component_values r))
    /\ is_finite infinity = false
    /\ is_finite neg_infinity = false.
Proof.
  eexists. split; [vm_compute; reflexivity|].
  cbn [input_x_component_values input_y_component_values data].
  repeat split; try reflexivity; simpl; tauto.
Qed.

(** [C4] On a grid that squeezes to [nlat] x [nlon] and for a stride
    [s >= 1], [minput_2d_vector] forwards at most
    [ceil(nlat/s) * ceil(nlon/s)] points, which is at most the number
    [nlat * nlon] of grid points. *)
Theorem minput_2d_vector_point_count :
  forall (u v lon lat : ndarray float) (skip : Z) (md : option metadata)
         (r : vector_input) (nlat nlon : nat),
    wf u -> shape (squeeze u) = [nlat; nlon] -> (1 <= skip)%Z ->
    minput_2d_vector u v lon lat skip md = Ret (Some r) ->
    let s := Z.to_nat skip in
    length (data (input_x_component_values r))
    <= ((nlat + s - 1) / s) * ((nlon + s - 1) / s)
    /\ ((nlat + s - 1) / s) * ((nlon + s - 1) / s) <= nlat * nlon.
Proof.
  intros u v lon lat skip md r nlat nlon Hwf Hsh Hskip H s.
  destruct (minput_2d_vector_inv _ _ _ _ _ _ _ H)
    as (us & vs & lats & lons & Hus & _ & _ & _ & _ & _ & _ & Hx & _).
  rewrite Hx. cbn [vector data]. clear Hx.
  unfold slice2 in Hus. rewrite Hsh in Hus.
  destruct (skip =? 0)%Z eqn:Hz; [discriminate Hus|].
  injection Hus as <-. cbn [data squeeze size_of fold_right].
  split.
  - etransitivity; [apply select_length_le|].
    rewrite slice2_data_length.
    + unfold slice_len. replace (Z.abs_nat skip) with s by (subst s; lia).
      lia.
    + lia.
    + apply squeeze_wf in Hwf. unfold wf in Hwf. rewrite Hsh in Hwf.
      cbn [squeeze data size_of fold_right] in Hwf. lia.
  - apply Nat.mul_le_mono; apply ceil_le; subst s; lia.
Qed.

Lemma minput_2d_vector_point_count_witness :
  length [1; 3; 7; 9]%float <= ((3 + 2 - 1) / 2) * ((3 + 2 - 1) / 2)
  /\ ((3 + 2 - 1) / 2) * ((3 + 2 - 1) / 2) <= 3 * 3.
Proof.
  refine (minput_2d_vector_point_count
            (grid 3 3 [1; 2; 3; 4; 5; 6; 7; 8; 9]%float)
            (grid 3 3 [1; 2; 3; 4; 5; 6; 7; 8; 9]%float)
            (vector [100; 110; 120]%float) (vector [10; 20; 30]%float)
            2%Z None
            (mk_vector_input "geographical" (vector [1; 3; 7; 9]%float)
               (vector [1; 3; 7; 9]%float) (vector [10; 10; 30; 30]%float)
               (vector [100; 120; 100; 120]%float)
               (Some default_vector_metadata))
            3 3 _ _ _ _).
  - reflexivity.
  - reflexivity.
  - lia.
  - vm_compute. reflexivity.
Defined.

(** A 3 x 3 grid with stride 2 forwards four points, more than 9 / 2^2. *)
Lemma minput_2d_vector_exceeds_quotient :
  exists r : vector_input,
    minput_2d_vector (grid 3 3 [1; 2; 3; 4; 5; 6; 7; 8; 9]%float)
                     (grid 3 3 [1; 2; 3; 4; 5; 6; 7; 8; 9]%float)
                     (vector [100; 110; 120]%float)
                     (vector [10; 20; 30]%float) 2 None
    = Ret (Some r)
    /\ length (data (input_x_component_values r)) = 4
    /\ ~ (length (data (input_x_component_values r)) * (2 * 2) <= 3 * 3).
Proof.
  eexists. split; [vm_compute; reflexivity|].
  cbn [input_x_component_values data length]. split; [reflexivity|lia].
Qed.

Lemma strided_positions_bound (skip : Z) (nlat nlon p : nat) :
  In p (strided_positions skip nlat nlon) -> p < nlat * nlon.
Proof.
  intros Hin. apply slice2_data_incl, in_seq in Hin. lia.
Qed.

Lemma at_grid_row_col (a : ndarray float) (ncols p : nat) :
  at_grid ncols a (p / ncols, p mod ncols) = at_position a p.
Proof.
  unfold at_grid. cbn [fst snd]. f_equal.
  rewrite (Nat.div_mod_eq p ncols) at 3. lia.
Qed.

(** [C5] In every record [minput_2d_vector] returns, the four forwarded
    lists (u components, v components, latitudes, longitudes) have the same
    length; and on a vector field whose u and v squeeze to one
    [nlat] x [nlon] grid over the coordinate vectors, there is a list of
    grid positions (row, column) such that the i-th u, v, latitude and
    longitude are the u and v values at the i-th position, the latitude of
    its row and the longitude of its column. *)
Theorem minput_2d_vector_co_indexed :
  forall (u v lon lat : ndarray float) (skip : Z) (md : option metadata)
         (r : vector_input),
    minput_2d_vector u v lon lat skip md = Ret (Some r) ->
    (size (input_y_component_values r) = size (input_x_component_values r)
     /\ size (input_latitude_values r) = size (input_x_component_values r)
     /\ size (input_longitude_values r) = size (input_x_component_values r))
    /\ (forall nlat nlon : nat,
           grid_inputs u v lon lat nlat nlon ->
           exists ps : list (nat * nat),
             Forall (fun ij => fst ij < nlat /\ snd ij < nlon) ps
             /\ input_x_component_values r = vector (map (at_grid nlon u) ps)
             /\ input_y_component_values r = vector (map (at_grid nlon v) ps)
             /\ input_latitude_values r
                = vector (map (fun ij => at_position lat (fst ij)) ps)
             /\ input_longitude_values r
                = vector (map (fun ij => at_position lon (snd ij)) ps)).
Proof.
  intros u v lon lat skip md r H. split.
  - destruct (minput_2d_vector_inv _ _ _ _ _ _ _ H)
      as (us & vs & lats & lons & _ & _ & _ & _ & Lv & Llat & Llon
          & -> & -> & -> & ->).
    unfold size, vector. cbn [data].
    repeat split; apply select_length_same; assumption.
  - intros nlat nlon Hgrid.
    assert (Hk : skip <> 0%Z).
    { intros ->. destruct (minput_2d_vector_zero u v lon lat md) as [e He].
      congruence. }
    rewrite (minput_2d_vector_grid _ _ _ _ _ _ _ _ Hgrid Hk) in H.
    cbn zeta in H.
    set (kept := kept_positions skip u v nlat nlon) in *.
    destruct (length kept =? 0); [discriminate H|].
    injection H as <-.
    cbn [input_x_component_values input_y_component_values
         input_latitude_values input_longitude_values].
    exists (map (fun p => (p / nlon, p mod nlon)) kept).
    rewrite !map_map. cbn [fst snd].
    split; [|repeat split].
    + apply Forall_forall. intros ij Hij.
      apply in_map_iff in Hij as (p & <- & Hp). cbn [fst snd].
      apply filter_In in Hp as [Hp _].
      apply strided_positions_bound in Hp.
      assert (nlon <> 0) by nia.
      split; [apply Nat.Div0.div_lt_upper_bound; lia
             |apply Nat.mod_upper_bound; assumption].
    + f_equal. apply map_ext. intros p. symmetry. apply at_grid_row_col.
    + f_equal. apply map_ext. intros p. symmetry. apply at_grid_row_col.
Qed.

Lemma minput_2d_vector_co_indexed_witness :
  let u := grid 2 3 [1; nan; 3; 4; 5; 6]%float in
  let v := grid 2 3 [7; 8; 9; nan; 11; 12]%float in
  let lon := vector [100; 110; 120]%float in
  let lat := vector [10; 20]%float in
  exists ps : list (nat * nat),
    Forall (fun ij => fst ij < 2 /\ snd ij < 3) ps
    /\ vector [1; 3; 5; 6]%float = vector (map (at_grid 3 u) ps)
    /\ vector [7; 9; 11; 12]%float = vector (map (at_grid 3 v) ps)
    /\ vector [10; 10; 20; 20]%float
       = vector (map (fun ij => at_position lat (fst ij)) ps)
    /\ vector [100; 120; 110; 120]%float
       = vector (map (fun ij => at_position lon (snd ij)) ps).
Proof.
  intros u v lon lat.
  refine (proj2 (minput_2d_vector_co_indexed u v lon lat 1%Z None
                   (mk_vector_input "geographical"
                      (vector [1; 3; 5; 6]%float)
                      (vector [7; 9; 11; 12]%float)
                      (vector [10; 10; 20; 20]%float)
                      (vector [100; 120; 110; 120]%float)
                      (Some default_vector_metadata)) _) 2 3 _).
  - vm_compute. reflexivity.
  - repeat split; reflexivity.
Defined.

Lemma survives_false (u v : ndarray float) (p : nat) :
  survives u v p = false
  <-> is_nan (at_position u p) = true \/ is_nan (at_position v p) = true.
Proof.
  unfold survives.
  destruct (is_nan (at_position u p)), (is_nan (at_position v p));
    simpl; intuition congruence.
Qed.

(** The strided component values are the values at the strided positions. *)
Lemma slice2_grid_positions (a : ndarray float) (nlat nlon : nat) (skip : Z) :
  wf a -> shape (squeeze a) = [nlat; nlon] -> skip <> 0%Z ->
  exists s : ndarray float,
    slice2 skip (squeeze a) = Ret s
    /\ data s = map (at_position a) (strided_positions skip nlat nlon).
Proof.
  intros Hwf Hsh Hk. unfold slice2. rewrite Hsh.
  apply Z.eqb_neq in Hk. rewrite Hk.
  eexists. split; [reflexivity|].
  cbn [data squeeze size_of fold_right]. unfold strided_positions.
  rewrite (grid_data_positions a nlat nlon Hwf Hsh) at 1.
  apply slice2_data_map.
Qed.

(** [C2] On a well-formed vector field and for a nonzero stride,
    [minput_2d_vector] never raises; it returns [None] exactly when no
    strided point survives the joint filtering, that is when at every
    strided position u or v is NaN, in particular when all strided u or all
    strided v values are NaN; otherwise it returns a record. *)
Theorem minput_2d_vector_none_iff :
  forall (u v lon lat : ndarray float) (nlat nlon : nat) (skip : Z)
         (md : option metadata),
    grid_inputs u v lon lat nlat nlon -> skip <> 0%Z ->
    exists us vs : ndarray float,
      slice2 skip (squeeze u) = Ret us
      /\ slice2 skip (squeeze v) = Ret vs
      /\ (minput_2d_vector u v lon lat skip md = Ret None
          <-> select (nan_mask (data us) (data vs)) (data us) = [])
      /\ (Forall (fun x => is_nan x = true) (data us)
          \/ Forall (fun y => is_nan y = true) (data vs) ->
          minput_2d_vector u v lon lat skip md = Ret None)
      /\ (minput_2d_vector u v lon lat skip md <> Ret None ->
          exists r : vector_input,
            minput_2d_vector u v lon lat skip md = Ret (Some r))
      /\ ~ raises (minput_2d_vector u v lon lat skip md).
Proof.
  intros u v lon lat nlat nlon skip md Hgrid Hk.
  pose proof Hgrid as (Hwu & Hwv & Hsu & Hsv & _).
  destruct (slice2_grid_positions u nlat nlon skip Hwu Hsu Hk)
    as (us & Hus & Eu).
  destruct (slice2_grid_positions v nlat nlon skip Hwv Hsv Hk)
    as (vs & Hvs & Ev).
  exists us, vs. split; [exact Hus|]. split; [exact Hvs|].
  rewrite (minput_2d_vector_grid _ _ _ _ _ _ _ md Hgrid Hk). cbn zeta.
  unfold kept_positions. rewrite Eu, Ev. unfold nan_mask.
  rewrite !map_map, combine_map_same, map_map, select_map_filter.
  cbn [fst snd]. fold (survives u v).
  set (ps := strided_positions skip nlat nlon).
  split; [|split; [|split]].
  - destruct (filter (survives u v) ps) as [|p0 rest];
      cbn [length Nat.eqb map]; split; try reflexivity; discriminate.
  - intros Hall.
    assert (Hf : filter (survives u v) ps = []).
    { apply filter_nil_iff. intros p Hp. apply survives_false.
      rewrite !Forall_map, !Forall_forall in Hall.
      destruct Hall as [Hall|Hall]; [left|right]; exact (Hall p Hp). }
    rewrite Hf. reflexivity.
  - destruct (filter (survives u v) ps) as [|p0 rest];
      cbn [length Nat.eqb]; [congruence|].
    intros _. eexists. reflexivity.
  - intros [e He].
    destruct (length (filter (survives u v) ps) =? 0); discriminate He.
Qed.

Lemma minput_2d_vector_none_iff_witness :
  minput_2d_vector (grid 4 4 (repeat nan 16)) (grid 4 4 (repeat nan 16))
                   (vector [100; 110; 120; 130]%float)
                   (vector [10; 20; 30; 40]%float) 1 None
  = Ret None.
Proof.
  destruct (minput_2d_vector_none_iff
              (grid 4 4 (repeat nan 16)) (grid 4 4 (repeat nan 16))
              (vector [100; 110; 120; 130]%float)
              (vector [10; 20; 30; 40]%float) 4 4 1%Z None)
    as (us & vs & Hus & Hvs & _ & Hall & _).
  - repeat split; reflexivity.
  - lia.
  - apply Hall. left. injection Hus as <-. vm_compute.
    repeat constructor.
Defined.

(** A field whose u values are all infinite is forwarded, not dropped. *)
Lemma minput_2d_vector_infinite_field_returned :
  let u := grid 2 2 (repeat infinity 4) in
  let v := grid 2 2 [5; 6; 7; 8]%float in
  let lon := vector [100; 110]%float in
  let lat := vector [10; 20]%float in
  exists us : ndarray float,
    slice2 1 (squeeze u) = Ret us
    /\ Forall (fun x => is_finite x = false) (data us)
    /\ minput_2d_vector u v lon lat 1 None <> Ret None
    /\ exists r : vector_input,
         minput_2d_vector u v lon lat 1 None = Ret (Some r).
Proof.
  intros u v lon lat. eexists.
  split; [vm_compute; reflexivity|].
  split; [repeat constructor|].
  split; [vm_compute; discriminate|].
  eexists. vm_compute. reflexivity.
Qed.

(* ================================================================== *)
(** ** The labeled-dataset vector adapter *)

(** [C8] When the caller omits the metadata, every record
    [minput_xarray_vector] returns carries its own default,
    [{'units': 'm/s', 'long_name': 'Wind field'}] (capital W); whatever
    metadata is passed is forwarded as it is. *)
Theorem minput_xarray_vector_default_metadata :
  forall (D : Type) (DS : Dataset D) (uwind vwind : D)
         (u_varname v_varname : string) (skip : Z) (r : vector_input),
    (minput_xarray_vector uwind vwind u_varname v_varname skip
                          minput_xarray_vector_metadata_default = Ret r ->
     input_metadata r
     = Some [("units", "m/s"); ("long_name", "Wind field")]%string)
    /\ (forall md : option metadata,
           minput_xarray_vector uwind vwind u_varname v_varname skip md
           = Ret r ->
           input_metadata r = md).
Proof.
  intros D DS uwind vwind u_varname v_varname skip r.
  assert (Hfwd : forall md : option metadata,
             minput_xarray_vector uwind vwind u_varname v_varname skip md
             = Ret r ->
             input_metadata r = md).
  { intros md H. unfold minput_xarray_vector in H. bind_inv H.
    cbn [meshgrid] in H. bind_inv H. injection H as <-. reflexivity. }
  split; [|exact Hfwd].
  intros H. apply Hfwd in H. exact H.
Qed.

Lemma minput_xarray_vector_default_metadata_witness :
  input_metadata
    (mk_vector_input "geographical"
       (vector [1; 3]%float) (vector [-1; -3]%float)
       (vector [10; 10]%float) (vector [100; 120]%float)
       minput_xarray_vector_metadata_default)
  = Some [("units", "m/s"); ("long_name", "Wind field")]%string.
Proof.
  refine (proj1 (minput_xarray_vector_default_metadata
                   mem_dataset mem_Dataset
                   (wind_dataset "u_varname" u12)
                   (wind_dataset "v_varname" v12)
                   "data" "data" 2%Z _) _).
  vm_compute. reflexivity.
Defined.

(** The default of the dataset adapter is not the default of
    [minput_2d_vector]. *)
Lemma minput_xarray_vector_default_differs :
  exists r : vector_input,
    minput_xarray_vector (wind_dataset "u_varname" u12)
                         (wind_dataset "v_varname" v12)
                         "data" "data" 1
                         minput_xarray_vector_metadata_default
    = Ret r
    /\ input_metadata r
       <> Some [("units", "m/s"); ("long_name", "wind field")]%string
    /\ input_metadata r <> Some default_vector_metadata.
Proof.
  eexists. split; [vm_compute; reflexivity|].
  cbn [input_metadata]. split; discriminate.
Qed.

(** [C6] The variable names passed to [minput_xarray_vector] do not reach
    the lookup: the result is the same for every choice of names, and on
    datasets that hold their components under ['data'] the call with
    [u_varname = v_varname = 'data'] raises [KeyError]. *)
Theorem minput_xarray_vector_ignores_varnames :
  (forall (D : Type) (DS : Dataset D) (uwind vwind : D)
          (u1 v1 u2 v2 : string) (skip : Z) (md : option metadata),
      minput_xarray_vector uwind vwind u1 v1 skip md
      = minput_xarray_vector uwind vwind u2 v2 skip md)
  /\ (exists a b : DataArray,
         getitem (wind_dataset "data" u12) "data" = Ret a
         /\ getitem (wind_dataset "data" v12) "data" = Ret b)
  /\ minput_xarray_vector (wind_dataset "data" u12) (wind_dataset "data" v12)
                          "data" "data" 1
                          minput_xarray_vector_metadata_default
     = Raise KeyError.
Proof.
  split; [reflexivity|]. split.
  - do 2 eexists. split; vm_compute; reflexivity.
  - vm_compute. reflexivity.
Qed.

(* ================================================================== *)
(** ** The examples of the specification *)

(** 120 longitudes and 60 latitudes without a region give a stride of 2. *)
Example stride_120_60 :
  get_skip_vector (vector (repeat 0%float 120)) (vector (repeat 0%float 60))
                  None
  = Ret 2%Z.
Proof. vm_compute. reflexivity. Qed.

(** An all-NaN 4 x 4 field with stride 1 gives [None]. *)
Example all_nan_4x4 :
  minput_2d_vector (grid 4 4 (repeat nan 16)) (grid 4 4 (repeat nan 16))
                   (vector [100; 110; 120; 130]%float)
                   (vector [10; 20; 30; 40]%float) 1 None
  = Ret None.
Proof. vm_compute. reflexivity. Qed.

(** One finite pair at position (0, 0) gives exactly that point. *)
Example one_finite_pair_4x4 :
  minput_2d_vector (grid 4 4 (1%float :: repeat nan 15))
                   (grid 4 4 (2%float :: repeat nan 15))
                   (vector [100; 110; 120; 130]%float)
                   (vector [10; 20; 30; 40]%float) 1 None
  = Ret (Some (mk_vector_input "geographical"
                 (vector [1]%float) (vector [2]%float)
                 (vector [10]%float) (vector [100]%float)
                 (Some default_vector_metadata))).
Proof. vm_compute. reflexivity. Qed.

(** A 1 x n field squeezes to one axis and cannot be sliced along two. *)
Example single_row_raises :
  minput_2d_vector (grid 1 3 [1; 2; 3]%float) (grid 1 3 [4; 5; 6]%float)
                   (vector [100; 110; 120]%float) (vector [10]%float) 1 None
  = Raise IndexError.
Proof. vm_compute. reflexivity. Qed.

(* ================================================================== *)
(** ** More on the stride estimator *)

Lemma get_skip_vector_value (lon lat : list float) (R : option region) :
  get_skip_vector (vector lon) (vector lat) R
  = Ret (Z.max (ceil_div (lon_count R lon) 60)
               (ceil_div (lat_count R lat) 30)).
Proof.
  unfold get_skip_vector. destruct R as [r|]; [|reflexivity].
  cbn [lon_count lat_count].
  destruct (restrict_vector (region0 r) (region1 r) lon) as (lon1 & -> & <-).
  destruct (restrict_vector (region2 r) (region3 r) lat) as (lat1 & -> & <-).
  reflexivity.
Qed.

Lemma ceil_div_zero_iff (n : nat) (d : positive) :
  ceil_div n d = 0%Z <-> n = 0.
Proof.
  pose proof (ceil_div_is_ceil n d) as Hc. unfold is_ceil in Hc.
  rewrite positive_nat_Z in Hc. split; intros H.
  - rewrite H in Hc. lia.
  - subst n. change (Z.of_nat 0) with 0%Z in Hc. nia.
Qed.

Lemma ceil_div_nonneg (n : nat) (d : positive) : (0 <= ceil_div n d)%Z.
Proof.
  pose proof (ceil_div_is_ceil n d) as Hc. unfold is_ceil in Hc.
  rewrite positive_nat_Z in Hc. nia.
Qed.

Lemma ceil_div_mono (n m : nat) (d : positive) :
  n <= m -> (ceil_div n d <= ceil_div m d)%Z.
Proof.
  intros Hnm.
  pose proof (ceil_div_is_ceil n d) as Hn.
  pose proof (ceil_div_is_ceil m d) as Hm.
  unfold is_ceil in Hn, Hm. rewrite positive_nat_Z in Hn, Hm. nia.
Qed.

Lemma count_within_le (lo hi : float) (l : list float) :
  count_within lo hi l <= length l.
Proof.
  induction l as [|x t IH]; simpl; [lia|].
  destruct (PrimFloat.leb lo x && PrimFloat.leb x hi)%bool; lia.
Qed.

(** [X1] The stride is never negative, and it is zero exactly when no longitude
    and no latitude is counted. *)
Theorem get_skip_vector_zero_iff :
  forall (lon lat : list float) (R : option region),
  exists s : Z,
    get_skip_vector (vector lon) (vector lat) R = Ret s
    /\ (0 <= s)%Z
    /\ (s = 0%Z <-> lon_count R lon = 0 /\ lat_count R lat = 0).
Proof.
  intros lon lat R. rewrite get_skip_vector_value. eexists.
  split; [reflexivity|].
  pose proof (ceil_div_nonneg (lon_count R lon) 60) as H1.
  pose proof (ceil_div_nonneg (lat_count R lat) 30) as H2.
  pose proof (ceil_div_zero_iff (lon_count R lon) 60) as Z1.
  pose proof (ceil_div_zero_iff (lat_count R lat) 30) as Z2.
  split; [lia|]. split.
  - intros Hmax. split; [apply Z1|apply Z2]; lia.
  - intros [Hlon Hlat]. apply Z1 in Hlon. apply Z2 in Hlat. lia.
Qed.

(** [X2] Restricting to a region never gives a larger stride than the whole
    vectors do. *)
Theorem get_skip_vector_region_le :
  forall (lon lat : list float) (r : region) (s0 s1 : Z),
    get_skip_vector (vector lon) (vector lat) None = Ret s0 ->
    get_skip_vector (vector lon) (vector lat) (Some r) = Ret s1 ->
    (s1 <= s0)%Z.
Proof.
  intros lon lat r s0 s1 H0 H1.
  rewrite get_skip_vector_value in H0, H1.
  injection H0 as <-. injection H1 as <-. cbn [lon_count lat_count].
  pose proof (ceil_div_mono _ _ 60
                (count_within_le (region0 r) (region1 r) lon)).
  pose proof (ceil_div_mono _ _ 30
                (count_within_le (region2 r) (region3 r) lat)).
  lia.
Qed.

Lemma get_skip_vector_region_le_witness : (0 <= 1)%Z.
Proof.
  apply (get_skip_vector_region_le [100; 110; 120]%float [10; 20]%float
           (0, 50, 30, 60)%float); vm_compute; reflexivity.
Defined.

(** The stride covers the counted coordinates: at most 60 strides of
    longitudes and 30 strides of latitudes. *)
Lemma get_skip_vector_covers (lon lat : list float) (R : option region)
      (s : Z) :
  get_skip_vector (vector lon) (vector lat) R = Ret s ->
  (Z.of_nat (lon_count R lon) <= 60 * s)%Z
  /\ (Z.of_nat (lat_count R lat) <= 30 * s)%Z.
Proof.
  intros H. rewrite get_skip_vector_value in H. injection H as <-.
  pose proof (ceil_div_is_ceil (lon_count R lon) 60) as H1.
  pose proof (ceil_div_is_ceil (lat_count R lat) 30) as H2.
  unfold is_ceil in H1, H2. rewrite positive_nat_Z in H1, H2. lia.
Qed.

Lemma slice_len_bound (k : Z) (n q : nat) :
  (0 < k)%Z -> (Z.of_nat n <= Z.of_nat q * k)%Z -> slice_len k n <= q.
Proof.
  intros Hk Hn. unfold slice_len.
  assert (Hs : 0 < Z.abs_nat k) by lia.
  assert (Hle : n <= q * Z.abs_nat k).
  { apply Nat2Z.inj_le. rewrite Nat2Z.inj_mul, Zabs2Nat.id_abs. lia. }
  apply Nat.lt_succ_r, Nat.Div0.div_lt_upper_bound. nia.
Qed.

(** [X3] With the stride [get_skip_vector] computes on the whole coordinate
    vectors, [minput_2d_vector] forwards at most 30 x 60 points. *)
Theorem default_stride_bounds_points :
  forall (u v : ndarray float) (lon lat : list float) (s : Z)
         (md : option metadata) (r : vector_input),
    wf u -> shape (squeeze u) = [length lat; length lon] ->
    get_skip_vector (vector lon) (vector lat) None = Ret s ->
    minput_2d_vector u v (vector lon) (vector lat) s md = Ret (Some r) ->
    size (input_x_component_values r) <= 30 * 60.
Proof.
  intros u v lon lat s md r Hwf Hsh Hs H.
  assert (Hk : s <> 0%Z).
  { intros ->.
    destruct (minput_2d_vector_zero u v (vector lon) (vector lat) md)
      as [e He].
    congruence. }
  destruct (get_skip_vector_covers lon lat None s Hs) as [Hlon Hlat].
  cbn [lon_count lat_count] in Hlon, Hlat.
  assert (Hpos : (0 < s)%Z) by lia.
  destruct (minput_2d_vector_inv _ _ _ _ _ _ _ H)
    as (us & vs & lats & lons & Hus & _ & _ & _ & _ & _ & _ & Hx & _).
  rewrite Hx. unfold size, vector. cbn [data].
  etransitivity; [apply select_length_le|].
  unfold slice2 in Hus. rewrite Hsh in Hus.
  destruct (s =? 0)%Z; [discriminate Hus|]. injection Hus as <-.
  cbn [data squeeze size_of fold_right].
  rewrite slice2_data_length.
  - pose proof (slice_len_bound s (length lat) 30 Hpos ltac:(lia)).
    pose proof (slice_len_bound s (length lon) 60 Hpos ltac:(lia)).
    nia.
  - exact Hk.
  - apply squeeze_wf in Hwf. unfold wf in Hwf. rewrite Hsh in Hwf.
    cbn [squeeze data size_of fold_right] in Hwf. lia.
Qed.

Lemma default_stride_bounds_points_witness :
  exists r : vector_input,
    minput_2d_vector (grid 2 61 (repeat 1%float 122))
                     (grid 2 61 (repeat 2%float 122))
                     (vector (repeat 100%float 61)) (vector [10; 20]%float)
                     2 None
    = Ret (Some r)
    /\ size (input_x_component_values r) <= 30 * 60.
Proof.
  eexists. split; [vm_compute; reflexivity|].
  eapply (default_stride_bounds_points
            (grid 2 61 (repeat 1%float 122)) (grid 2 61 (repeat 2%float 122))
            (repeat 100%float 61) [10; 20]%float 2%Z None);
    vm_compute; reflexivity.
Defined.

(* ================================================================== *)
(** ** More on the scalar adapter *)

(** [X4] [minput_2d] never forwards an axis of length one: a field with a
    single row loses its latitude axis and its one latitude becomes a 0-d
    array, so the field is not forwarded as [(len(lat), len(lon))]. *)
Theorem minput_2d_drops_unit_axes :
  forall (data0 lon lat : ndarray float) (md : option metadata),
    let r := minput_2d data0 lon lat md in
    (~ In 1 (shape (input_field r))
     /\ ~ In 1 (shape (input_latitudes_list r))
     /\ ~ In 1 (shape (input_longitudes_list r)))
    /\ (forall n : nat,
           n <> 1 -> shape data0 = [1; n] -> shape lat = [1] ->
           shape lon = [n] ->
           shape (input_field r) = [n]
           /\ shape (input_latitudes_list r) = []
           /\ shape (input_longitudes_list r) = [n]
           /\ len (input_latitudes_list r) = Raise TypeError).
Proof.
  intros data0 lon lat md r. subst r. unfold minput_2d, astype_float64.
  cbn [input_field input_latitudes_list input_longitudes_list].
  split.
  - repeat split; apply squeeze_no_unit_axis.
  - intros n Hn Hd Hlat Hlon. unfold len, squeeze. cbn [shape].
    rewrite Hd, Hlat, Hlon. cbn [filter Nat.eqb negb].
    destruct (Nat.eqb_spec n 1) as [->|_]; [contradiction|].
    cbn [negb]. repeat split.
Qed.

Lemma minput_2d_drops_unit_axes_witness :
  let r := minput_2d (grid 1 3 [1; 2; 3]%float) (vector [100; 110; 120]%float)
                     (vector [10]%float) None in
  shape (input_field r) = [3]
  /\ shape (input_latitudes_list r) = []
  /\ shape (input_longitudes_list r) = [3]
  /\ len (input_latitudes_list r) = Raise TypeError.
Proof.
  apply (proj2 (minput_2d_drops_unit_axes
                  (grid 1 3 [1; 2; 3]%float) (vector [100; 110; 120]%float)
                  (vector [10]%float) None) 3);
    [lia|reflexivity|reflexivity|reflexivity].
Defined.

(* ================================================================== *)
(** ** More on the vector adapter *)

(** [X5] A u field that squeezes to fewer than two axes cannot be sliced along
    two: a single row, a single column or a 1-d input raises [IndexError],
    whatever the stride. *)
Theorem minput_2d_vector_needs_two_axes :
  forall (u v lon lat : ndarray float) (skip : Z) (md : option metadata),
    (length (shape (squeeze u)) < 2 ->
     minput_2d_vector u v lon lat skip md = Raise IndexError)
    /\ (forall n : nat,
           shape u = [1; n] \/ shape u = [n; 1] ->
           minput_2d_vector u v lon lat skip md = Raise IndexError).
Proof.
  intros u v lon lat skip md.
  assert (Hgen : length (shape (squeeze u)) < 2 ->
                 minput_2d_vector u v lon lat skip md = Raise IndexError).
  { intros Hlen. unfold minput_2d_vector, astype_float64. cbn [meshgrid].
    unfold slice2 at 1.
    destruct (shape (squeeze u)) as [|d0 [|d1 rest]]; try reflexivity.
    cbn [length] in Hlen. lia. }
  split; [exact Hgen|].
  intros n Hn. apply Hgen. unfold squeeze. cbn [shape].
  destruct Hn as [-> | ->]; cbn [filter Nat.eqb negb];
    destruct (n =? 1); cbn [negb length]; lia.
Qed.

Lemma minput_2d_vector_needs_two_axes_witness :
  minput_2d_vector (grid 3 1 [1; 2; 3]%float) (grid 3 1 [4; 5; 6]%float)
                   (vector [100]%float) (vector [10; 20; 30]%float) 1 None
  = Raise IndexError.
Proof.
  apply (proj2 (minput_2d_vector_needs_two_axes
                  (grid 3 1 [1; 2; 3]%float) (grid 3 1 [4; 5; 6]%float)
                  (vector [100]%float) (vector [10; 20; 30]%float) 1 None) 3).
  right. reflexivity.
Defined.

(** [X6] u and v fields whose strided grids hold different numbers of
    points never yield a record.  The adapter raises, except when one grid
    strides to no point and the other to exactly one: the mask is then
    broadcast to an empty one, which indexes any array, and the result is
    [None]. *)
Theorem minput_2d_vector_uv_mismatch :
  forall (u v lon lat : ndarray float) (skip : Z) (md : option metadata)
         (a b c d : nat),
    wf u -> wf v ->
    shape (squeeze u) = [a; b] -> shape (squeeze v) = [c; d] ->
    let nu := slice_len skip a * slice_len skip b in
    let nv := slice_len skip c * slice_len skip d in
    nu <> nv ->
    (forall r : vector_input,
        minput_2d_vector u v lon lat skip md <> Ret (Some r))
    /\ (nu + nv = 1 -> minput_2d_vector u v lon lat skip md = Ret None)
    /\ (nu + nv <> 1 -> raises (minput_2d_vector u v lon lat skip md)).
Proof.
  intros u v lon lat skip md a b c d Hwu Hwv Hsu Hsv nu nv Hne.
  assert (Hk : skip <> 0%Z).
  { intros ->. subst nu nv. unfold slice_len in Hne. cbn in Hne. lia. }
  pose proof Hk as Hk'. apply Z.eqb_neq in Hk'.
  assert (Hcases : (nu + nv = 1 ->
                    minput_2d_vector u v lon lat skip md = Ret None)
                   /\ (nu + nv <> 1 ->
                       raises (minput_2d_vector u v lon lat skip md))).
  { unfold minput_2d_vector, astype_float64. cbn [meshgrid].
    unfold slice2. rewrite Hsu, Hsv. cbn [shape squeeze data]. rewrite Hk'.
    cbn [bind flatten data shape size_of fold_right].
    apply squeeze_wf in Hwu, Hwv. unfold wf in Hwu, Hwv.
    rewrite Hsu in Hwu. rewrite Hsv in Hwv.
    cbn [squeeze data size_of fold_right] in Hwu, Hwv.
    assert (Hdu : length (slice2_data skip a b 1 (data u)) = nu)
      by (rewrite slice2_data_length by lia; subst nu; lia).
    assert (Hdv : length (slice2_data skip c d 1 (data v)) = nv)
      by (rewrite slice2_data_length by lia; subst nv; lia).
    clearbody nu nv.
    set (du := slice2_data skip a b 1 (data u)) in *.
    set (dv := slice2_data skip c d 1 (data v)) in *.
    clearbody du dv. subst nu nv.
    unfold flatten, invert, isnan, map_array. cbn [shape data].
    rewrite logical_and_flat_gen by (now rewrite !length_map).
    rewrite !length_map, (proj2 (Nat.eqb_neq _ _) Hne).
    destruct du as [|x [|x' du]], dv as [|y [|y' dv]];
      cbn [length] in Hne; try congruence; cbn [map bind].
    1-5: unfold getitem_mask, mask_axes_ok, shape_eqb, size, raises;
      cbn [shape data length map bind list_eq_dec list_rec list_rect
           Nat.eq_dec nat_rec nat_rect sumbool_rec sumbool_rect
           combine forallb fst snd Nat.leb Nat.eqb andb orb negb
           skipn firstn size_of fold_right chunks select concat app
           Nat.mul Nat.add];
      (split; [intros; try reflexivity; lia
              |intros; try lia; eexists; reflexivity]).
    - rewrite (getitem_mask_flat (x :: x' :: du))
        by (cbn [shape data length]; rewrite !length_map; reflexivity).
      cbn [data length]. rewrite !length_map, Nat.eqb_refl. cbn [bind].
      rewrite (getitem_mask_flat [y])
        by (cbn [shape data length]; rewrite !length_map; reflexivity).
      cbn [data length]. rewrite !length_map. cbn [Nat.eqb bind].
      split; [intros; lia|intros; eexists; reflexivity].
    - cbn [length]. unfold raises.
      split; [intros; lia|intros; eexists; reflexivity]. }
  destruct Hcases as [Hnone Hraise].
  split; [|split; assumption].
  intros r Hr.
  destruct (Nat.eq_dec (nu + nv) 1) as [H1|H1].
  - rewrite (Hnone H1) in Hr. discriminate Hr.
  - destruct (Hraise H1) as [e He]. congruence.
Qed.

Lemma minput_2d_vector_uv_mismatch_witness :
  minput_2d_vector (grid 0 3 []) (grid 2 2 [1; 2; 3; 4]%float)
                   (vector [100; 110]%float) (vector [10; 20]%float) 2 None
  = Ret None
  /\ raises (minput_2d_vector (grid 2 2 [1; 2; 3; 4]%float)
                              (grid 2 3 [1; 2; 3; 4; 5; 6]%float)
                              (vector [100; 110]%float)
                              (vector [10; 20]%float) 1 None).
Proof.
  split.
  - apply (minput_2d_vector_uv_mismatch
             (grid 0 3 []) (grid 2 2 [1; 2; 3; 4]%float)
             (vector [100; 110]%float) (vector [10; 20]%float) 2%Z None
             0 3 2 2); try reflexivity.
    vm_compute. discriminate.
  - apply (minput_2d_vector_uv_mismatch
             (grid 2 2 [1; 2; 3; 4]%float) (grid 2 3 [1; 2; 3; 4; 5; 6]%float)
             (vector [100; 110]%float) (vector [10; 20]%float) 1%Z None
             2 2 2 3); try reflexivity.
    + vm_compute. discriminate.
    + vm_compute. discriminate.
Defined.


(** *** Which grid points the slicing visits *)

Lemma stride_from_seq (s : nat) :
  0 < s ->
  forall n a c, c < s ->
    stride_from s c (seq a n)
    = filter (fun i => i mod s =? (a + c) mod s) (seq a n).
Proof.
  intros Hs. induction n as [|n IH]; intros a c Hc; [reflexivity|].
  cbn [seq stride_from filter]. destruct c as [|c].
  - rewrite Nat.add_0_r, Nat.eqb_refl. f_equal.
    rewrite IH by lia. apply filter_ext. intros i. f_equal.
    replace (S a + (s - 1)) with (a + 1 * s) by lia.
    apply Nat.Div0.mod_add.
  - destruct (Nat.eqb_spec (a mod s) ((a + S c) mod s)) as [Heq|_].
    + exfalso.
      pose proof (Nat.div_mod_eq a s) as Ha.
      pose proof (Nat.div_mod_eq (a + S c) s) as Hac.
      pose proof (Nat.mod_upper_bound a s ltac:(lia)) as Hb.
      assert (Hq : s * ((a + S c) / s) = s * (a / s) + S c) by lia.
      assert (Hd : (a + S c) / s = a / s \/ (a + S c) / s > a / s
                   \/ (a + S c) / s < a / s) by lia.
      destruct Hd as [Hd|[Hd|Hd]]; nia.
    + rewrite IH by lia. apply filter_ext. intros i. f_equal. f_equal. lia.
Qed.

Lemma rev_seq_0 (n : nat) :
  rev (seq 0 n) = map (fun i => n - 1 - i) (seq 0 n).
Proof.
  induction n as [|n IH]; [reflexivity|].
  rewrite seq_S at 1. rewrite rev_app_distr. cbn [rev app plus]. rewrite IH.
  cbn [seq map]. rewrite <- seq_shift, map_map. f_equal; [lia|].
  apply map_ext. intros i. lia.
Qed.

Lemma slice_step_seq (k : Z) (n : nat) :
  k <> 0%Z -> slice_step k (seq 0 n) = axis_indices k n.
Proof.
  intros Hk. unfold slice_step, axis_indices, multiples.
  destruct (0 <? k)%Z eqn:Hpos.
  - apply Z.ltb_lt in Hpos. rewrite stride_from_seq by lia.
    apply filter_ext. intros i. now rewrite Nat.Div0.mod_0_l.
  - apply Z.ltb_ge in Hpos.
    rewrite rev_seq_0, stride_from_map, stride_from_seq by lia.
    f_equal. apply filter_ext. intros i. now rewrite Nat.Div0.mod_0_l.
Qed.

Lemma axis_indices_bound (k : Z) (n i : nat) :
  In i (axis_indices k n) -> i < n.
Proof.
  unfold axis_indices, multiples. destruct (0 <? k)%Z; intros Hin.
  - apply filter_In in Hin as [Hin _]. apply in_seq in Hin. lia.
  - apply in_map_iff in Hin as (j & <- & Hj).
    apply filter_In in Hj as [Hj _]. apply in_seq in Hj. lia.
Qed.

Lemma chunks_seq (m n : nat) :
  forall a, chunks m n (seq a (n * m))
            = map (fun i => seq (a + i * m) m) (seq 0 n).
Proof.
  induction n as [|n IH]; intros a; [reflexivity|].
  cbn [chunks]. replace (S n * m) with (m + n * m) by lia.
  rewrite seq_app, firstn_app, length_seq, Nat.sub_diag, firstn_O, app_nil_r.
  rewrite firstn_all2 by (rewrite length_seq; lia).
  rewrite skipn_app, length_seq, Nat.sub_diag, skipn_O.
  rewrite skipn_all2 by (rewrite length_seq; lia).
  cbn [app seq map]. rewrite IH, <- seq_shift, map_map.
  f_equal; [f_equal; lia|]. apply map_ext. intros i. f_equal. lia.
Qed.

Lemma chunks_one {A : Type} (n : nat) :
  forall l : list A,
    n <= length l -> chunks 1 n l = map (fun x => [x]) (firstn n l).
Proof.
  induction n as [|n IH]; intros l Hl; [reflexivity|].
  destruct l as [|x t]; cbn [length] in Hl; [lia|].
  cbn [chunks firstn skipn map]. rewrite IH by lia. reflexivity.
Qed.

Lemma concat_singletons {A : Type} (l : list A) :
  concat (map (fun x => [x]) l) = l.
Proof. induction l; simpl; congruence. Qed.

Lemma map_list_prod {A B C : Type} (f : A * B -> C) (l : list A)
      (l' : list B) :
  map f (list_prod l l') = flat_map (fun a => map (fun b => f (a, b)) l') l.
Proof.
  induction l as [|a l IH]; [reflexivity|].
  cbn [list_prod flat_map]. now rewrite map_app, map_map, IH.
Qed.

(** The flat positions [[::k, ::k]] visits are those of the visited
    (row, column) pairs. *)
Lemma strided_positions_points (k : Z) (nlat nlon : nat) :
  k <> 0%Z ->
  strided_positions k nlat nlon
  = map (fun ij => fst ij * nlon + snd ij) (grid_points k nlat nlon).
Proof.
  intros Hk. unfold strided_positions, slice2_data, grid_points.
  rewrite Nat.mul_1_r, chunks_seq, slice_step_map, slice_step_seq by exact Hk.
  rewrite map_map, map_list_prod, flat_map_concat_map. f_equal.
  apply map_ext. intros i. cbn [fst snd plus].
  rewrite chunks_one, firstn_all2 by (rewrite length_seq; lia).
  rewrite slice_step_map, concat_singletons.
  rewrite (seq_shift_add (i * nlon) 0), slice_step_map, slice_step_seq
    by exact Hk.
  apply map_ext. intros j. lia.
Qed.

(** [X8] On a well-formed vector field and for a nonzero stride,
    [minput_2d_vector] forwards exactly the visited grid points at which
    neither component is NaN, in the order the slicing visits them (rows
    0, k, 2k, ... and columns 0, k, 2k, ... for a positive stride; from the
    last row and column backwards for a negative one), each with its
    u, v, the latitude of its row and the longitude of its column; it
    returns [None] when there is no such point. *)
Theorem minput_2d_vector_points :
  forall (u v lon lat : ndarray float) (nlat nlon : nat) (skip : Z)
         (md : option metadata),
    grid_inputs u v lon lat nlat nlon -> skip <> 0%Z ->
    let pts := filter (survives_at nlon u v) (grid_points skip nlat nlon) in
    minput_2d_vector u v lon lat skip md
    = match pts with
      | [] => Ret None
      | _ :: _ =>
          Ret (Some (mk_vector_input "geographical"
                       (vector (map (at_grid nlon u) pts))
                       (vector (map (at_grid nlon v) pts))
                       (vector (map (fun ij => at_position lat (fst ij)) pts))
                       (vector (map (fun ij => at_position lon (snd ij)) pts))
                       (Some match md with
                             | None => default_vector_metadata
                             | Some m => m
                             end)))
      end.
Proof.
  intros u v lon lat nlat nlon skip md Hgrid Hk pts.
  rewrite (minput_2d_vector_grid _ _ _ _ _ _ _ md Hgrid Hk). cbn zeta.
  unfold kept_positions. rewrite strided_positions_points by exact Hk.
  rewrite filter_map_swap.
  change (filter (fun a => survives u v (fst a * nlon + snd a))
                 (grid_points skip nlat nlon)) with pts.
  assert (Hin : forall ij, In ij pts -> snd ij < nlon).
  { intros [i j] Hij. apply filter_In in Hij as [Hij _].
    apply in_prod_iff in Hij as [_ Hj]. cbn [snd].
    eapply axis_indices_bound; eauto. }
  rewrite !map_map.
  assert (Elat : map (fun x => at_position lat ((fst x * nlon + snd x) / nlon))
                     pts
                 = map (fun ij => at_position lat (fst ij)) pts).
  { apply map_ext_in. intros ij Hij. apply Hin in Hij. f_equal.
    rewrite Nat.div_add_l by lia. rewrite Nat.div_small by lia. lia. }
  assert (Elon : map (fun x => at_position lon ((fst x * nlon + snd x) mod nlon))
                     pts
                 = map (fun ij => at_position lon (snd ij)) pts).
  { apply map_ext_in. intros ij Hij. apply Hin in Hij. f_equal.
    rewrite Nat.add_comm, Nat.Div0.mod_add. apply Nat.mod_small. lia. }
  rewrite Elat, Elon.
  destruct pts as [|p rest]; reflexivity.
Qed.

Lemma minput_2d_vector_points_witness :
  minput_2d_vector (grid 3 3 [1; 2; 3; 4; 5; 6; 7; 8; nan]%float)
                   (grid 3 3 [1; 2; 3; 4; 5; 6; 7; 8; 9]%float)
                   (vector [100; 110; 120]%float) (vector [10; 20; 30]%float)
                   (-2) None
  = Ret (Some (mk_vector_input "geographical"
                 (vector [7; 3; 1]%float) (vector [7; 3; 1]%float)
                 (vector [30; 10; 10]%float) (vector [100; 120; 100]%float)
                 (Some default_vector_metadata))).
Proof.
  rewrite (minput_2d_vector_points _ _ _ _ 3 3 (-2)%Z None).
  - vm_compute. reflexivity.
  - repeat split; reflexivity.
  - lia.
Defined.

Lemma slice_len_zero_iff (k : Z) (n : nat) :
  k <> 0%Z -> (slice_len k n = 0 <-> n = 0).
Proof.
  intros Hk. unfold slice_len.
  assert (Hs : 0 < Z.abs_nat k) by lia.
  split; intros H.
  - destruct n as [|n]; [reflexivity|]. exfalso.
    assert (Hge : 1 <= (S n + Z.abs_nat k - 1) / Z.abs_nat k).
    { apply Nat.div_le_lower_bound; lia. }
    lia.
  - subst n. apply Nat.div_small. lia.
Qed.

Lemma filter_all {A : Type} (f : A -> bool) (l : list A) :
  (forall x, In x l -> f x = true) -> filter f l = l.
Proof.
  intros Hall. induction l as [|x t IH]; [reflexivity|].
  cbn [filter]. rewrite (Hall x (or_introl eq_refl)). f_equal.
  apply IH. intros y Hy. apply Hall. now right.
Qed.

(** Without NaN, every strided position is kept. *)
Lemma kept_positions_no_nan (u v : ndarray float) (nlat nlon : nat)
      (skip : Z) :
  wf u -> wf v ->
  shape (squeeze u) = [nlat; nlon] -> shape (squeeze v) = [nlat; nlon] ->
  Forall (fun x => is_nan x = false) (data u) ->
  Forall (fun y => is_nan y = false) (data v) ->
  kept_positions skip u v nlat nlon = strided_positions skip nlat nlon.
Proof.
  intros Hwu Hwv Hsu Hsv Hu Hv. unfold kept_positions.
  apply filter_all. intros p Hp. apply strided_positions_bound in Hp.
  assert (Hlen : forall a : ndarray float,
             wf a -> shape (squeeze a) = [nlat; nlon] ->
             length (data a) = nlat * nlon).
  { intros a Hwa Hsa. apply squeeze_wf in Hwa. unfold wf in Hwa.
    rewrite Hsa in Hwa. cbn [squeeze data size_of fold_right] in Hwa. lia. }
  rewrite Forall_forall in Hu, Hv. unfold survives, at_position.
  rewrite (Hu (nth p (data u) nan)), (Hv (nth p (data v) nan));
    [reflexivity| |]; apply nth_In; rewrite Hlen; assumption.
Qed.



Lemma stride_from_one {A : Type} (l : list A) : stride_from 1 0 l = l.
Proof. induction l as [|x t IH]; [reflexivity|]. cbn. now rewrite IH. Qed.

Lemma concat_seq_rows (m n : nat) :
  forall a, concat (map (fun i => seq (a + i * m) m) (seq 0 n))
            = seq a (n * m).
Proof.
  induction n as [|n IH]; intros a; [reflexivity|].
  cbn [seq map concat]. rewrite <- seq_shift, map_map.
  replace (S n * m) with (m + n * m) by lia.
  rewrite seq_app, <- (IH (a + m)). f_equal; [f_equal; lia|].
  f_equal. apply map_ext. intros i. f_equal. lia.
Qed.

Lemma strided_positions_one (nlat nlon : nat) :
  strided_positions 1 nlat nlon = seq 0 (nlat * nlon).
Proof.
  unfold strided_positions, slice2_data, slice_step.
  change (0 <? 1)%Z with true. cbn iota. change (Z.to_nat 1) with 1.
  rewrite Nat.mul_1_r, chunks_seq, stride_from_one.
  rewrite <- (concat_seq_rows nlon nlat 0). f_equal. rewrite map_map.
  apply map_ext. intros i.
  rewrite chunks_one, firstn_all2 by (rewrite length_seq; lia).
  now rewrite stride_from_one, concat_singletons.
Qed.

(** [X10] With stride 1 and no NaN the whole field is forwarded unchanged: the
    flattened u and v and the flattened coordinate meshes. *)
Theorem minput_2d_vector_stride_one :
  forall (u v lon lat : ndarray float) (nlat nlon : nat)
         (md : option metadata),
    grid_inputs u v lon lat nlat nlon ->
    Forall (fun x => is_nan x = false) (data u) ->
    Forall (fun y => is_nan y = false) (data v) ->
    nlat * nlon <> 0 ->
    minput_2d_vector u v lon lat 1 md
    = Ret (Some (mk_vector_input "geographical"
                   (flatten u) (flatten v)
                   (flatten (snd (meshgrid lon lat)))
                   (flatten (fst (meshgrid lon lat)))
                   (Some match md with
                         | None => default_vector_metadata
                         | Some m => m
                         end))).
Proof.
  intros u v lon lat nlat nlon md Hgrid Hu Hv Hne.
  pose proof Hgrid as (Hwu & Hwv & Hsu & Hsv & Hlat & Hlon).
  assert (H1 : (1 <> 0)%Z) by lia.
  rewrite (minput_2d_vector_grid _ _ _ _ _ _ _ md Hgrid H1).
  cbn zeta. rewrite (kept_positions_no_nan u v nlat nlon 1) by assumption.
  rewrite strided_positions_one, length_seq.
  destruct (Nat.eqb_spec (nlat * nlon) 0) as [Hz|_]; [contradiction|].
  unfold size in Hlat, Hlon.
  rewrite <- (grid_data_positions u nlat nlon Hwu Hsu).
  rewrite <- (grid_data_positions v nlat nlon Hwv Hsv).
  unfold flatten, vector, meshgrid. cbn [fst snd data].
  rewrite (flat_map_repeat_positions nan), (concat_repeat_positions nan).
  rewrite Hlat, Hlon. reflexivity.
Qed.

Lemma minput_2d_vector_stride_one_witness :
  minput_2d_vector (grid 2 2 [1; 2; 3; 4]%float) (grid 2 2 [5; 6; 7; 8]%float)
                   (vector [100; 110]%float) (vector [10; 20]%float) 1 None
  = Ret (Some (mk_vector_input "geographical"
                 (vector [1; 2; 3; 4]%float) (vector [5; 6; 7; 8]%float)
                 (vector [10; 10; 20; 20]%float)
                 (vector [100; 110; 100; 110]%float)
                 (Some default_vector_metadata))).
Proof.
  apply (minput_2d_vector_stride_one
           (grid 2 2 [1; 2; 3; 4]%float) (grid 2 2 [5; 6; 7; 8]%float)
           (vector [100; 110]%float) (vector [10; 20]%float) 2 2 None).
  - repeat split; reflexivity.
  - repeat constructor.
  - repeat constructor.
  - lia.
Defined.

Lemma flat_map_repeat_length {A : Type} (n : nat) (l : list A) :
  length (flat_map (fun v => repeat v n) l) = length l * n.
Proof.
  induction l as [|x t IH]; [reflexivity|].
  cbn [flat_map length]. rewrite length_app, repeat_length, IH. lia.
Qed.

(** [X7] Coordinate vectors that do not fit the field are noticed only when a
    point survives: with a different number of strided coordinate points
    the adapter raises [IndexError] if some strided point has both
    components non-NaN, and returns [None] without complaint otherwise. *)
Theorem minput_2d_vector_coordinate_mismatch :
  forall (u v lon lat : ndarray float) (nlat nlon : nat) (skip : Z)
         (md : option metadata),
    wf u -> wf v ->
    shape (squeeze u) = [nlat; nlon] -> shape (squeeze v) = [nlat; nlon] ->
    skip <> 0%Z ->
    slice_len skip (size lat) * slice_len skip (size lon)
    <> slice_len skip nlat * slice_len skip nlon ->
    minput_2d_vector u v lon lat skip md
    = match kept_positions skip u v nlat nlon with
      | [] => Ret None
      | _ :: _ => Raise IndexError
      end.
Proof.
  intros u v lon lat nlat nlon skip md Hwu Hwv Hsu Hsv Hk Hne.
  pose proof (grid_data_positions u nlat nlon Hwu Hsu) as Eu.
  pose proof (grid_data_positions v nlat nlon Hwv Hsv) as Ev.
  pose proof Hk as Hk'. apply Z.eqb_neq in Hk'.
  unfold minput_2d_vector, astype_float64, kept_positions, strided_positions.
  cbn [meshgrid]. unfold slice2. rewrite Hsu, Hsv.
  cbn [shape squeeze data]. rewrite Hk'.
  cbn [bind flatten data shape size_of fold_right].
  set (ps := slice2_data skip nlat nlon 1 (seq 0 (nlat * nlon))).
  assert (Eu' : slice2_data skip nlat nlon 1 (data u) = map (at_position u) ps)
    by (rewrite Eu at 1; apply slice2_data_map).
  assert (Ev' : slice2_data skip nlat nlon 1 (data v) = map (at_position v) ps)
    by (rewrite Ev at 1; apply slice2_data_map).
  rewrite Eu', Ev'.
  set (lats := slice2_data skip (length (data lat)) (length (data lon)) 1
                 (flat_map (fun x => repeat x (length (data lon)))
                           (data lat))).
  assert (Hlats : length lats <> length ps).
  { subst lats ps. rewrite !slice2_data_length.
    - unfold size in Hne. lia.
    - exact Hk.
    - rewrite length_seq. lia.
    - exact Hk.
    - rewrite flat_map_repeat_length. lia. }
  unfold logical_and, invert, isnan, map_array, getitem_mask, size, flatten.
  cbn [shape data]. rewrite !length_map, shape_eqb_refl.
  cbn [bind shape data].
  rewrite !map_map, combine_map_same, map_map.
  rewrite ?length_map, ?shape_eqb_refl. cbn [bind shape data].
  rewrite !select_map_filter, ?length_map. cbn [fst snd].
  fold (survives u v).
  destruct (filter (survives u v) ps) as [|p rest] eqn:Hf;
    cbn [length Nat.eqb]; [reflexivity|].
  assert (Hps : length ps <> 0).
  { intros Hz. apply length_zero_iff_nil in Hz. rewrite Hz in Hf.
    discriminate Hf. }
  rewrite shape_eqb_neq by congruence. unfold mask_axes_ok.
  cbn [length combine forallb fst snd Nat.leb andb orb].
  rewrite (proj2 (Nat.eqb_neq _ _) Hps).
  rewrite (proj2 (Nat.eqb_neq _ _) (not_eq_sym Hlats)). reflexivity.
Qed.

Lemma minput_2d_vector_coordinate_mismatch_witness :
  minput_2d_vector (grid 2 2 [1; 2; 3; 4]%float) (grid 2 2 [5; 6; 7; 8]%float)
                   (vector [100; 110; 120]%float) (vector [10; 20]%float)
                   1 None
  = Raise IndexError
  /\ minput_2d_vector (grid 2 2 (repeat nan 4)) (grid 2 2 [5; 6; 7; 8]%float)
                      (vector [100; 110; 120]%float) (vector [10; 20]%float)
                      1 None
     = Ret None.
Proof.
  split.
  - rewrite (minput_2d_vector_coordinate_mismatch _ _ _ _ 2 2 1%Z None);
      try reflexivity; try lia.
    vm_compute. discriminate.
  - rewrite (minput_2d_vector_coordinate_mismatch _ _ _ _ 2 2 1%Z None);
      try reflexivity; try lia.
    vm_compute. discriminate.
Defined.

(* ================================================================== *)
(** ** More on the labeled-dataset adapters *)

Section DatasetAdapters.

Context {D : Type} {DS : Dataset D}.

(** [X11] A stride of zero makes [minput_xarray_vector] raise on every pair of
    datasets: no step before the slicing can make it return. *)
Theorem minput_xarray_vector_zero :
  forall (uwind vwind : D) (u_varname v_varname : string)
         (md : option metadata),
    raises (minput_xarray_vector uwind vwind u_varname v_varname 0 md).
Proof.
  intros uwind vwind u_varname v_varname md.
  unfold minput_xarray_vector, raises.
  repeat match goal with
         | |- exists e, bind ?c _ = Raise e =>
             destruct c; cbn [bind]; [eexists; reflexivity|]
         end.
  cbn [meshgrid].
  match goal with
  | |- exists e, bind (slice2 0 ?a) _ = Raise e =>
      destruct (slice2_zero a) as [e ->]
  end.
  exists e. reflexivity.
Qed.

(** [X12] Dimensions named lon or lat are never collapsed: on datasets whose
    dimensions are all spatial both loops return the datasets untouched,
    without looking up a label. *)
Theorem spatial_datasets_untouched :
  forall (ds : list string) (uwind vwind : D),
    Forall (fun dim => is_spatial dim = true) ds ->
    select_first ds uwind vwind = Ret (uwind, vwind)
    /\ collapse_dims ds uwind = Ret uwind.
Proof.
  intros ds uwind vwind Hall.
  induction Hall as [|dim ds Hdim _ IH]; [split; reflexivity|].
  cbn [select_first collapse_dims]. rewrite Hdim. exact IH.
Qed.

Lemma minput_xarray_vector_returns_nonzero (uwind vwind : D)
      (u_varname v_varname : string) (skip : Z) (md : option metadata)
      (r : vector_input) :
  minput_xarray_vector uwind vwind u_varname v_varname skip md = Ret r ->
  skip <> 0%Z.
Proof.
  intros H ->. unfold minput_xarray_vector in H. bind_inv H.
  cbn [meshgrid] in H. bind_inv H.
  match goal with
  | E : slice2 0 ?a = Ret _ |- _ =>
      destruct (slice2_zero a) as [e He]; congruence
  end.
Qed.

(** What a record returned by [minput_xarray_vector] holds, by strided
    position. *)
Lemma minput_xarray_vector_positions :
  forall (uwind vwind : D) (u_varname v_varname : string) (skip : Z)
         (md : option metadata) (r : vector_input),
    minput_xarray_vector uwind vwind u_varname v_varname skip md = Ret r ->
    exists (uw vw : D) (fu fv la lo : DataArray),
      select_first (dims uwind) uwind vwind = Ret (uw, vw)
      /\ getitem uw "lat" = Ret la /\ getitem uw "lon" = Ret lo
      /\ getitem uw "u_varname" = Ret fu
      /\ getitem vw "v_varname" = Ret fv
      /\ (forall nlat nlon : nat,
             wf (values fu) -> shape (squeeze (values fu)) = [nlat; nlon] ->
             input_x_component_values r
             = vector (map (at_position (values fu))
                           (strided_positions skip nlat nlon)))
      /\ (forall nlat nlon : nat,
             wf (values fv) -> shape (squeeze (values fv)) = [nlat; nlon] ->
             input_y_component_values r
             = vector (map (at_position (values fv))
                           (strided_positions skip nlat nlon)))
      /\ input_latitude_values r
         = vector (map (fun p => at_position (values la)
                                   (p / size (values lo)))
                       (strided_positions skip (size (values la))
                                          (size (values lo))))
      /\ input_longitude_values r
         = vector (map (fun p => at_position (values lo)
                                   (p mod size (values lo)))
                       (strided_positions skip (size (values la))
                                          (size (values lo)))).
Proof.
  intros uwind vwind u_varname v_varname skip md r H.
  unfold minput_xarray_vector, astype_float64 in H. bind_inv H.
  cbn [meshgrid] in H. bind_inv H. injection H as <-.
  destruct a as [uw vw]. cbn [fst snd] in *.
  exists uw, vw, a2, a3, a0, a1.
  do 5 (split; [reflexivity || assumption|]).
  cbn [input_x_component_values input_y_component_values
       input_latitude_values input_longitude_values].
  assert (Hk : skip <> 0%Z).
  { intros ->. destruct (slice2_zero (squeeze (values a2))) as [e He].
    congruence. }
  assert (Hcomp : forall (f : DataArray) (s : ndarray float) nlat nlon,
             slice2 skip (squeeze (values f)) = Ret s ->
             wf (values f) -> shape (squeeze (values f)) = [nlat; nlon] ->
             flatten s
             = vector (map (at_position (values f))
                           (strided_positions skip nlat nlon))).
  { intros f s nlat nlon Hs Hwf Hsh.
    destruct (slice2_grid_positions (values f) nlat nlon skip Hwf Hsh Hk)
      as (s' & Hs' & Es).
    rewrite Hs in Hs'. injection Hs' as <-.
    unfold flatten, vector. now rewrite Es. }
  split; [intros nlat nlon; now apply Hcomp|].
  split; [intros nlat nlon; now apply Hcomp|].
  unfold slice2 in E6, E7. cbn [shape data] in E6, E7.
  apply Z.eqb_neq in Hk. rewrite Hk in E6, E7.
  injection E6 as <-. injection E7 as <-.
  unfold flatten, vector, size, strided_positions.
  cbn [data size_of fold_right].
  rewrite (flat_map_repeat_positions nan), (concat_repeat_positions nan).
  rewrite !slice2_data_map. split; reflexivity.
Qed.

(** [X13] [minput_xarray_vector] does not filter: whenever it returns, the u
    list holds the value at every strided position of the field stored
    under ['u_varname'], NaN included, so it has exactly
    [ceil(nlat/|skip|) * ceil(nlon/|skip|)] entries; likewise v. *)
Theorem minput_xarray_vector_no_filter :
  forall (uwind vwind : D) (u_varname v_varname : string) (skip : Z)
         (md : option metadata) (r : vector_input),
    minput_xarray_vector uwind vwind u_varname v_varname skip md = Ret r ->
    exists (uw vw : D) (fu fv : DataArray),
      select_first (dims uwind) uwind vwind = Ret (uw, vw)
      /\ getitem uw "u_varname" = Ret fu
      /\ getitem vw "v_varname" = Ret fv
      /\ (forall nlat nlon : nat,
             wf (values fu) -> shape (squeeze (values fu)) = [nlat; nlon] ->
             size (input_x_component_values r)
             = slice_len skip nlat * slice_len skip nlon
             /\ forall p : nat,
                  In p (strided_positions skip nlat nlon) ->
                  In (at_position (values fu) p)
                     (data (input_x_component_values r)))
      /\ (forall nlat nlon : nat,
             wf (values fv) -> shape (squeeze (values fv)) = [nlat; nlon] ->
             size (input_y_component_values r)
             = slice_len skip nlat * slice_len skip nlon
             /\ forall p : nat,
                  In p (strided_positions skip nlat nlon) ->
                  In (at_position (values fv) p)
                     (data (input_y_component_values r))).
Proof.
  intros uwind vwind u_varname v_varname skip md r H.
  pose proof (minput_xarray_vector_returns_nonzero _ _ _ _ _ _ _ H) as Hk.
  destruct (minput_xarray_vector_positions _ _ _ _ _ _ _ H)
    as (uw & vw & fu & fv & la & lo & Hsel & _ & _ & Hfu & Hfv & Hx & Hy & _).
  exists uw, vw, fu, fv. do 3 (split; [assumption|]).
  assert (Hlen : forall nlat nlon,
             length (strided_positions skip nlat nlon)
             = slice_len skip nlat * slice_len skip nlon).
  { intros nlat nlon. unfold strided_positions.
    rewrite slice2_data_length; [lia|exact Hk|rewrite length_seq; lia]. }
  split; intros nlat nlon Hwf Hsh.
  - rewrite (Hx nlat nlon Hwf Hsh). unfold size, vector. cbn [data].
    rewrite length_map. split; [apply Hlen|].
    intros p Hp. now apply in_map.
  - rewrite (Hy nlat nlon Hwf Hsh). unfold size, vector. cbn [data].
    rewrite length_map. split; [apply Hlen|].
    intros p Hp. now apply in_map.
Qed.

(** [X14] The dataset path and the array path agree on fields without NaN: when
    [minput_xarray_vector] returns, [minput_2d_vector] on the arrays it
    read returns the same four lists (under its own metadata), provided
    they form a well-formed, non-empty, NaN-free vector field. *)
Theorem minput_xarray_vector_agrees_without_nan :
  forall (uwind vwind : D) (u_varname v_varname : string) (skip : Z)
         (md md' : option metadata) (r : vector_input),
    minput_xarray_vector uwind vwind u_varname v_varname skip md = Ret r ->
    exists (uw vw : D) (fu fv la lo : DataArray),
      select_first (dims uwind) uwind vwind = Ret (uw, vw)
      /\ getitem uw "lat" = Ret la /\ getitem uw "lon" = Ret lo
      /\ getitem uw "u_varname" = Ret fu
      /\ getitem vw "v_varname" = Ret fv
      /\ (forall nlat nlon : nat,
             grid_inputs (values fu) (values fv) (values lo) (values la)
                         nlat nlon ->
             Forall (fun x => is_nan x = false) (data (values fu)) ->
             Forall (fun y => is_nan y = false) (data (values fv)) ->
             nlat * nlon <> 0 ->
             minput_2d_vector (values fu) (values fv) (values lo) (values la)
                              skip md'
             = Ret (Some (mk_vector_input "geographical"
                            (input_x_component_values r)
                            (input_y_component_values r)
                            (input_latitude_values r)
                            (input_longitude_values r)
                            (Some match md' with
                                  | None => default_vector_metadata
                                  | Some m => m
                                  end)))).
Proof.
  intros uwind vwind u_varname v_varname skip md md' r H.
  pose proof (minput_xarray_vector_returns_nonzero _ _ _ _ _ _ _ H) as Hk.
  destruct (minput_xarray_vector_positions _ _ _ _ _ _ _ H)
    as (uw & vw & fu & fv & la & lo & Hsel & Hla & Hlo & Hfu & Hfv
        & Hx & Hy & Hlat & Hlon).
  exists uw, vw, fu, fv, la, lo. do 5 (split; [assumption|]).
  intros nlat nlon Hgrid Hnu Hnv Hne.
  pose proof Hgrid as (Hwu & Hwv & Hsu & Hsv & Hsla & Hslo).
  rewrite (minput_2d_vector_grid _ _ _ _ _ _ _ md' Hgrid Hk). cbn zeta.
  rewrite (kept_positions_no_nan _ _ nlat nlon skip) by assumption.
  rewrite (Hx nlat nlon Hwu Hsu), (Hy nlat nlon Hwv Hsv), Hlat, Hlon.
  rewrite Hsla, Hslo.
  destruct (Nat.eqb_spec (length (strided_positions skip nlat nlon)) 0)
    as [Hz|_]; [|reflexivity].
  exfalso. unfold strided_positions in Hz.
  rewrite slice2_data_length in Hz by (try exact Hk; rewrite length_seq; lia).
  pose proof (slice_len_zero_iff skip nlat Hk).
  pose proof (slice_len_zero_iff skip nlon Hk). nia.
Qed.

(** [X15] [minput_xarray] reads the variable named by [varname] from the
    collapsed dataset, forwards its squeezed values with the dataset's own
    lat and lon, and takes the variable's attributes as metadata when none
    is passed; it raises when lat, lon or the variable is missing. *)
Theorem minput_xarray_reads_varname :
  forall (data0 data1 : D) (varname : string) (md : option metadata),
    collapse_dims (dims data0) data0 = Ret data1 ->
    (forall r : dataset_field_input,
        minput_xarray data0 varname md = Ret r <->
        exists la lo f : DataArray,
          getitem data1 "lat" = Ret la /\ getitem data1 "lon" = Ret lo
          /\ getitem data1 varname = Ret f
          /\ r = mk_dataset_field_input
                   (squeeze (values f)) (values la) (values lo)
                   (Some match md with
                         | None => attrs f
                         | Some m => m
                         end))
    /\ (forall e : exn,
           getitem data1 "lat" = Raise e \/ getitem data1 "lon" = Raise e
           \/ getitem data1 varname = Raise e ->
           raises (minput_xarray data0 varname md)).
Proof.
  intros data0 data1 varname md Hc.
  assert (Hiff : forall r : dataset_field_input,
             minput_xarray data0 varname md = Ret r <->
             exists la lo f : DataArray,
               getitem data1 "lat" = Ret la /\ getitem data1 "lon" = Ret lo
               /\ getitem data1 varname = Ret f
               /\ r = mk_dataset_field_input
                        (squeeze (values f)) (values la) (values lo)
                        (Some match md with
                              | None => attrs f
                              | Some m => m
                              end)).
  { intros r. unfold minput_xarray, astype_float64. rewrite Hc. cbn [bind].
    split.
    - intros H. bind_inv H. exists a, a0, a1.
      do 3 (split; [reflexivity|]).
      destruct md as [m|]; cbn [bind] in E2.
      + injection E2 as <-. now injection H as <-.
      + injection E2 as <-. now injection H as <-.
    - intros (la & lo & f & -> & -> & Hf & ->). cbn [bind].
      rewrite Hf. cbn [bind]. destruct md as [m|]; reflexivity. }
  split; [exact Hiff|].
  intros e He.
  destruct (minput_xarray data0 varname md) as [e'|r] eqn:Hr;
    [exists e'; reflexivity|].
  destruct (proj1 (Hiff r) eq_refl) as (la & lo & f & Hla & Hlo & Hf & _).
  destruct He as [He|[He|He]]; congruence.
Qed.

End DatasetAdapters.

Lemma spatial_datasets_untouched_witness :
  let d := [("lat", mk_variable ["lat"] (vector [10; 20]%float) []);
            ("lon", mk_variable ["lon"] (vector [100; 110]%float) []);
            ("t", mk_variable ["lat"; "lon"] (grid 2 2 [1; 2; 3; 4]%float) [])
           ]%string in
  select_first (dims d) d d = Ret (d, d) /\ collapse_dims (dims d) d = Ret d.
Proof.
  intros d. apply spatial_datasets_untouched. repeat constructor.
Defined.

Lemma minput_xarray_vector_no_filter_witness :
  let uwind := wind_dataset "u_varname"
                 [nan; 2; 3; 4; 5; 6; 7; 8; 9; 10; 11; 12]%float in
  let vwind := wind_dataset "v_varname" v12 in
  size (vector [nan; 2; 3; 4; 5; 6]%float) = slice_len 1 2 * slice_len 1 3.
Proof.
  intros uwind vwind.
  destruct (minput_xarray_vector_no_filter uwind vwind "data" "data" 1%Z None
              (mk_vector_input "geographical"
                 (vector [nan; 2; 3; 4; 5; 6]%float)
                 (vector [-1; -2; -3; -4; -5; -6]%float)
                 (vector [10; 10; 10; 20; 20; 20]%float)
                 (vector [100; 110; 120; 100; 110; 120]%float) None))
    as (uw & vw & fu & fv & Hsel & Hfu & _ & Hx & _).
  - vm_compute. reflexivity.
  - vm_compute in Hsel. injection Hsel as <- <-.
    vm_compute in Hfu. injection Hfu as <-.
    apply (Hx 2 3); reflexivity.
Defined.

Lemma minput_xarray_vector_agrees_without_nan_witness :
  minput_2d_vector (grid 2 3 [1; 2; 3; 4; 5; 6]%float)
                   (grid 2 3 [-1; -2; -3; -4; -5; -6]%float)
                   (vector [100; 110; 120]%float) (vector [10; 20]%float)
                   2 None
  = Ret (Some (mk_vector_input "geographical"
                 (vector [1; 3]%float) (vector [-1; -3]%float)
                 (vector [10; 10]%float) (vector [100; 120]%float)
                 (Some default_vector_metadata))).
Proof.
  destruct (minput_xarray_vector_agrees_without_nan
              (wind_dataset "u_varname" u12) (wind_dataset "v_varname" v12)
              "data" "data" 2%Z None None
              (mk_vector_input "geographical"
                 (vector [1; 3]%float) (vector [-1; -3]%float)
                 (vector [10; 10]%float) (vector [100; 120]%float) None))
    as (uw & vw & fu & fv & la & lo & Hsel & Hla & Hlo & Hfu & Hfv & Hagree).
  - vm_compute. reflexivity.
  - vm_compute in Hsel. injection Hsel as <- <-.
    vm_compute in Hla, Hlo, Hfu, Hfv.
    injection Hla as <-. injection Hlo as <-.
    injection Hfu as <-. injection Hfv as <-.
    apply (Hagree 2 3).
    + repeat split; reflexivity.
    + repeat constructor.
    + repeat constructor.
    + lia.
Defined.

Lemma minput_xarray_reads_varname_witness :
  exists r : dataset_field_input,
    minput_xarray (wind_dataset "t" u12) "t" None = Ret r
    /\ ds_input_metadata r = Some [("units", "m/s")]%string
    /\ raises (minput_xarray (wind_dataset "t" u12) "data" None).
Proof.
  destruct (minput_xarray_reads_varname
              (wind_dataset "t" u12)
              (map (fun kv => (fst kv,
                               select_variable "level" 0
                                 (select_variable "time" 0 (snd kv))))
                   (wind_dataset "t" u12))
              "t" None) as [Hiff _]; [vm_compute; reflexivity|].
  destruct (minput_xarray_reads_varname
              (wind_dataset "t" u12)
              (map (fun kv => (fst kv,
                               select_variable "level" 0
                                 (select_variable "time" 0 (snd kv))))
                   (wind_dataset "t" u12))
              "data" None) as [_ Hraise]; [vm_compute; reflexivity|].
  eexists. split; [|split].
  - apply Hiff. do 3 eexists.
    split; [vm_compute; reflexivity|].
    split; [vm_compute; reflexivity|].
    split; [vm_compute; reflexivity|]. reflexivity.
  - reflexivity.
  - apply (Hraise KeyError). right. right. vm_compute. reflexivity.
Defined.
